(** * A shallow embedding of the C web server (src/server.c)

    The request handlers of [server.c] are embedded as computations in a
    small state-and-exit monad over an explicit world (the content cache,
    the state of libc's random generator and the clock); each computation
    yields the events it causes, in program order.  The collaborators
    whose sources are not part of [server.c] are treated as follows:

    - [cache.h] (cache_create, cache_get, cache_put): modelled from the
      specification, in [Module Cache];
    - [file.h] (file_load) and [mime.h] (mime_type_get): fields of the
      class [Server.Env]; the file system is fixed during a run;
    - libc ([time], [srand], [rand], [asctime]): fields of [Server.Env],
      with the C standard's range of [rand] as the only assumption.

    The embedding has two layers.  In [Module Server] strings and byte
    sequences are unbounded and a failed [send] returns an error: the
    control flow of the handlers, their calls and the order of those.  In
    [Module Bounded] the same handlers write into the arrays that the
    source declares (the three tokens of the request line, the file
    path, the body of [get_d20] and the [max_response_size] bytes in which
    [send_response] assembles a response), a write that does not fit is
    an overrun, and a failed [send] may raise SIGPIPE.  A run of
    [Bounded.main] that overruns no array and is not ended by a signal is
    the run of [Server.main] on the same connections; what is said of
    the responses to static-file requests is said on [Bounded]. *)

From stdpp Require Import gmap strings list fin_maps pretty.
From Stdlib Require Import ZArith Strings.Byte.

Local Open Scope Z_scope.

(** ** The content cache *)

Module Cache.

(** Modelled from the spec: [struct cache_entry] of cache.h is missing from
    the sources; the fields are the ones [server.c] reads
    ([content_type], [content], [content_length]) and the key ([path]). *)
Record cache_entry : Type := mk_entry {
  path : string;
  content_type : string;
  content : list byte;
  content_length : Z
}.

(** Modelled from the spec: [struct cache] of cache.h is missing from the
    sources; the spec's data model has a capacity, an index from keys to
    entries, and a recency sequence of keys from most-recently-used to
    least-recently-used. *)
Record cache : Type := mk_cache {
  max_size : Z;
  index : gmap string cache_entry;
  recency : list string
}.

(** Modelled from the spec: [cache_create] of cache.c is missing from the
    sources.  The spec takes a capacity of at least one and rejects
    anything smaller at construction; the second argument of the call in
    [main] (a hash-table size, 0 for the default) has no role in the
    spec's data model. *)
Definition cache_create (max_size hashsize : Z) : option cache :=
  if decide (1 ≤ max_size)
  then Some {| max_size := max_size; index := ∅; recency := [] |}
  else None.

(** Moving a key to the most-recently-used end of the recency sequence. *)
Definition promote (key : string) (r : list string) : list string :=
  key :: filter (λ k, k ≠ key) r.

(** Modelled from the spec: [cache_get] of cache.c is missing from the
    sources.  A hit returns the entry and promotes the key; a miss
    changes nothing. *)
Definition cache_get (c : cache) (key : string) : option cache_entry * cache :=
  match index c !! key with
  | Some e => (Some e, {| max_size := max_size c;
                          index := index c;
                          recency := promote key (recency c) |})
  | None => (None, c)
  end.

(** Eviction of the least-recently-used entry, the tail of the recency
    sequence, from both the index and the recency sequence. *)
Definition evict (c : cache) : cache :=
  match last (recency c) with
  | Some victim => {| max_size := max_size c;
                      index := delete victim (index c);
                      recency := removelast (recency c) |}
  | None => c
  end.

(** Modelled from the spec: [cache_put] of cache.c is missing from the
    sources.  A present key is overwritten in place and promoted; an
    absent key is inserted as most-recently-used, after the eviction of
    the least-recently-used entry when the index is at capacity. *)
Definition cache_put (c : cache) (key ctype : string) (data : list byte)
    (len : Z) : cache :=
  let e := {| path := key; content_type := ctype;
              content := data; content_length := len |} in
  match index c !! key with
  | Some _ => {| max_size := max_size c;
                 index := <[key := e]> (index c);
                 recency := promote key (recency c) |}
  | None =>
      let c' := if decide (Z.of_nat (size (index c)) = max_size c)
                then evict c else c in
      {| max_size := max_size c';
         index := <[key := e]> (index c');
         recency := key :: recency c' |}
  end.

(** A put whose arguments are bundled as an entry. *)
Definition put_entry (c : cache) (e : cache_entry) : cache :=
  cache_put c (path e) (content_type e) (content e) (content_length e).

(** A sequence of puts, in order. *)
Definition put_all (c : cache) (es : list cache_entry) : cache :=
  foldl put_entry c es.

(** The pairs that the index holds for a list of entries. *)
Definition bindings (es : list cache_entry) : list (string * cache_entry) :=
  (λ e, (path e, e)) <$> es.

(** Invariants I1 and I2 of the spec, with the capacity bound of
    [cache_create]. *)
Record wf (c : cache) : Prop := mk_wf {
  wf_capacity : 1 ≤ max_size c;
  wf_bound : Z.of_nat (size (index c)) ≤ max_size c;
  wf_nodup : NoDup (recency c);
  wf_keys : ∀ k, k ∈ recency c ↔ is_Some (index c !! k)
}.

End Cache.

(** ** The file loader's result ([struct file_data] of file.h) *)

Module File.

(** Modelled from the spec: [struct file_data] of file.h is missing from
    the sources; [server.c] reads its fields [data] and [size]. *)
Record file_data : Type := mk_file_data {
  size : Z;
  data : list byte
}.

End File.

(** ** The server *)

Module Server.
Import Cache.

Definition PORT : string := "3490".
Definition SERVER_FILES : string := "./serverfiles".
Definition SERVER_ROOT : string := "./serverroot".

(** The collaborators of [server.c]: file.h, mime.h and libc.  The file
    system is a function of the path alone: it does not change during a
    run.  [time n] is the value of the [n]-th call of [time(NULL)];
    [asctime t] stands for [asctime(localtime(&t))]; [srand seed] is the
    generator's state after seeding, and [rand] draws a number and
    advances the state. *)
Class Env : Type := {
  file_load : string → option File.file_data;
  mime_type_get : string → string;
  time : nat → Z;
  asctime : Z → string;
  srand : Z → Z;
  rand : Z → Z * Z
}.


(** Modelled from the spec: file.c is missing from the sources; the spec's
    File Loader returns the full byte contents of the file and their
    length. *)
Class FileLaw (E : Env) : Prop :=
  file_load_size : ∀ p f,
    file_load p = Some f → File.size f = Z.of_nat (length (File.data f)).

(** What [recv] followed by [sscanf(request, "%s %s %s", ...)] yields on
    a connection: a failure of [recv], or the three tokens of the
    request line. *)
Inductive recv_result : Type :=
| RecvError
| Received (req_method req_uri req_protocol : string).

(** A connected socket: its descriptor, what [recv] yields on it and
    whether [send] succeeds on it. *)
Record socket : Type := mk_socket {
  sock_fd : Z;
  sock_recv : recv_result;
  sock_send_ok : bool
}.

(** The arguments of a response: the status line, the content type, the
    length and the [content_length] bytes of the body. *)
Record response : Type := mk_response {
  header : string;
  resp_content_type : string;
  resp_content_length : Z;
  body : list byte
}.

(** Observable events, in program order. *)
Inductive event : Type :=
| EvCacheGet (key : string) (hit : bool)
| EvCachePut (key ctype : string) (data : list byte) (len : Z)
| EvFileLoad (path : string) (found : bool)
| EvSend (fd : Z) (date : string) (r : response)
| EvStderr (msg : string)
| EvStdout (msg : string)
| EvClose (fd : Z).

(** The mutable state of the process: the one cache created by [main]
    (every [struct cache *] of the source points to it), the state of
    libc's generator and the number of calls of [time] so far. *)
Record world : Type := mk_world {
  w_cache : cache;
  w_rng : Z;
  w_ticks : nat
}.

Definition set_cache (c : cache) (w : world) : world :=
  {| w_cache := c; w_rng := w_rng w; w_ticks := w_ticks w |}.
Definition set_rng (s : Z) (w : world) : world :=
  {| w_cache := w_cache w; w_rng := s; w_ticks := w_ticks w |}.
Definition tick (w : world) : world :=
  {| w_cache := w_cache w; w_rng := w_rng w; w_ticks := S (w_ticks w) |}.

(** A computation either returns, with the new world, or ends the
    process through [exit]; either way it has emitted events. *)
Inductive result (A : Type) : Type :=
| Done (a : A) (w : world)
| Exited (code : Z).
Global Arguments Done {A} a w.
Global Arguments Exited {A} code.

Definition M (A : Type) : Type := world → list event * result A.

Definition ret {A} (a : A) : M A := λ w, ([], Done a w).

Definition bind {A B} (m : M A) (k : A → M B) : M B := λ w,
  match m w with
  | (t1, Done a w1) => let '(t2, r) := k a w1 in (t1 ++ t2, r)
  | (t1, Exited code) => (t1, Exited code)
  end.

Notation "x <- m ;; k" := (bind m (λ x, k))
  (at level 20, m at level 99, k at level 200, only parsing).
Notation "m ;; k" := (bind m (λ _, k))
  (at level 100, k at level 200, only parsing, right associativity).

Definition emit (e : event) : M unit := λ w, ([e], Done tt w).

Definition exit {A} (code : Z) : M A := λ w, ([], Exited code).

(** The bytes of a C string and its [strlen]. *)
Definition bytes_of (s : string) : list byte := String.list_byte_of_string s.
Definition strlen (s : string) : Z := Z.of_nat (String.length s).

(** [sprintf(body, "%d", n)]. *)
Definition sprintf_d (n : Z) : string := pretty n.

(** The header block that [send_response] formats with [sprintf]. *)
Definition response_head (date : string) (r : response) : string :=
  header r +:+ "
" +:+ "Date: " +:+ date +:+ "Connection: close
" +:+ "Content-Type: " +:+ resp_content_type r +:+ "
Content-Length: " +:+ sprintf_d (resp_content_length r) +:+ "
" +:+ "
".

(** The bytes that [send_response] hands to [send]: the header block
    followed by the body. *)
Definition response_bytes (date : string) (r : response) : list byte :=
  bytes_of (response_head date r) ++ body r.


Section Handlers.
Context {E : Env}.

Definition call_time : M Z := λ w,
  ([], Done (time (w_ticks w)) (tick w)).

(** [srand] takes an [unsigned int]: the seed is reduced modulo 2^32. *)
Definition call_srand (seed : Z) : M unit := λ w,
  ([], Done tt (set_rng (srand (seed mod 2 ^ 32)) w)).

Definition call_rand : M Z := λ w,
  ([], Done (rand (w_rng w)).1 (set_rng (rand (w_rng w)).2 w)).

Definition call_file_load (filepath : string) : M (option File.file_data) :=
  let r := file_load filepath in
  emit (EvFileLoad filepath (bool_decide (is_Some r)));; ret r.

Definition call_cache_get (key : string) : M (option cache_entry) := λ w,
  ([EvCacheGet key (bool_decide (is_Some (cache_get (w_cache w) key).1))],
   Done (cache_get (w_cache w) key).1
        (set_cache (cache_get (w_cache w) key).2 w)).

Definition call_cache_put (key ctype : string) (data : list byte)
    (len : Z) : M unit := λ w,
  ([EvCachePut key ctype data len],
   Done tt (set_cache (cache_put (w_cache w) key ctype data len) w)).

(** [send_response]: reads the clock for the Date line, copies
    [content_length] bytes of the body after the header block and
    sends the whole; a failed [send] is reported on stderr.  The value
    returned is that of [send]. *)
Definition send_response (fd : socket) (header content_type : string)
    (body : list byte) (content_length : Z) : M Z :=
  cur_time <- call_time;;
  let r := {| header := header; resp_content_type := content_type;
              resp_content_length := content_length;
              body := take (Z.to_nat content_length) body |} in
  let date := asctime cur_time in
  emit (EvSend (sock_fd fd) date r);;
  if sock_send_ok fd
  then ret (Z.of_nat (length (response_bytes date r)))
  else emit (EvStderr "send");; ret (-1).

(** [get_d20]: reseeds the generator from the clock, draws once and
    sends the number as text. *)
Definition get_d20 (fd : socket) : M unit :=
  t <- call_time;;
  call_srand t;;
  r <- call_rand;;
  let d20 := Z.rem r 20 + 1 in
  let body := sprintf_d d20 in
  send_response fd "HTTP/1.1 200 OK" "text/plain" (bytes_of body)
                (strlen body);;
  ret tt.

(** [resp_404]: loads the 404 document and sends it, or ends the
    process with code 3 when it cannot be loaded. *)
Definition resp_404 (fd : socket) : M unit :=
  let filepath := SERVER_FILES +:+ "/404.html" in
  filedata <- call_file_load filepath;;
  match filedata with
  | None =>
      emit (EvStderr "cannot find system 404 file
");; exit 3
  | Some f =>
      let mime_type := mime_type_get filepath in
      send_response fd "HTTP/1.1 404 NOT FOUND" mime_type
                    (File.data f) (File.size f);;
      ret tt
  end.

(** [get_file]: serves the cached entry of the file path, or loads the
    file (then the [index.html] under the path), stores it in the
    cache under the path that was loaded and serves it. *)
Definition get_file (fd : socket) (request_path : string) : M unit :=
  let filepath := "./serverroot" +:+ request_path in
  cache_entry <- call_cache_get filepath;;
  match cache_entry with
  | Some e =>
      send_response fd "HTTP/1.1 200 OK" (content_type e) (content e)
                    (content_length e);;
      ret tt
  | None =>
      filedata <- call_file_load filepath;;
      loaded <- match filedata with
                | Some f => ret (filepath, Some f)
                | None =>
                    let filepath :=
                      "./serverroot/" +:+ request_path +:+ "/index.html" in
                    filedata <- call_file_load filepath;;
                    ret (filepath, filedata)
                end;;
      match loaded with
      | (_, None) => resp_404 fd
      | (filepath, Some f) =>
          let mime_type := mime_type_get filepath in
          call_cache_put filepath mime_type (File.data f) (File.size f);;
          send_response fd "HTTP/1.1 200 OK" mime_type
                        (File.data f) (File.size f);;
          ret tt
      end
  end.

(** [handle_http_request]: a failed [recv] is reported and nothing is
    sent; a GET goes to [get_d20] or [get_file]; any other method is
    left unanswered. *)
Definition handle_http_request (fd : socket) : M unit :=
  match sock_recv fd with
  | RecvError => emit (EvStderr "recv")
  | Received req_method req_uri req_protocol =>
      if decide (req_method = "GET") then
        if decide (req_uri = "/d20") then get_d20 fd
        else get_file fd req_uri
      else ret tt
  end.

(** What [accept] yields: a failure, or a new connection and the
    printable address of its peer. *)
Inductive accept_result : Type :=
| AcceptError
| Accepted (newfd : socket) (peer : string).

(** One turn of the loop of [main]. *)
Definition serve (a : accept_result) : M unit :=
  match a with
  | AcceptError => emit (EvStderr "accept")
  | Accepted newfd s =>
      emit (EvStdout ("server: got connection from " +:+ s +:+ "
"));;
      handle_http_request newfd;;
      emit (EvClose (sock_fd newfd))
  end.

(** The loop of [main], over the connections that arrive. *)
Fixpoint main_loop (conns : list accept_result) : M unit :=
  match conns with
  | [] => ret tt
  | a :: rest => serve a;; main_loop rest
  end.

(** [main]: creates the cache of capacity 10, ends the process with
    code 1 when there is no listening socket, and serves the
    connections in turn.  [None] stands for a failed [cache_create],
    which the source does not check for. *)
Definition main (rng0 : Z) (listenfd : Z) (conns : list accept_result)
    : option (list event * result unit) :=
  match cache_create 10 0 with
  | None => None
  | Some cache =>
      Some ((if decide (listenfd < 0)
             then emit (EvStderr "webserver: fatal error getting listening socket
");; exit 1
             else emit (EvStdout ("webserver: waiting for connections on port "
                                    +:+ PORT +:+ "...
"));;
                  main_loop conns)
              {| w_cache := cache; w_rng := rng0; w_ticks := 0 |})
  end.

(** The paths that [get_file] tries for a request path, and the path
    of the 404 document. *)
Definition direct_path (request_path : string) : string :=
  "./serverroot" +:+ request_path.
Definition index_path (request_path : string) : string :=
  "./serverroot/" +:+ request_path +:+ "/index.html".
Definition not_found_path : string := SERVER_FILES +:+ "/404.html".

(** The file that a request path resolves to: the direct path, or else
    the [index.html] under it. *)
Definition resolve (request_path : string) : option (string * File.file_data) :=
  match file_load (direct_path request_path) with
  | Some f => Some (direct_path request_path, f)
  | None =>
      match file_load (index_path request_path) with
      | Some f => Some (index_path request_path, f)
      | None => None
      end
  end.

(** The file loads of [get_file] after a cache miss, up to the first
    that succeeds. *)
Definition load_events (request_path : string) : list event :=
  match file_load (direct_path request_path) with
  | Some _ => [EvFileLoad (direct_path request_path) true]
  | None =>
      [EvFileLoad (direct_path request_path) false;
       EvFileLoad (index_path request_path)
                  (bool_decide (is_Some (file_load (index_path request_path))))]
  end.

(** The response that carries a file. *)
Definition file_response (header filepath : string) (f : File.file_data)
    : response :=
  {| header := header; resp_content_type := mime_type_get filepath;
     resp_content_length := File.size f; body := File.data f |}.

(** The number that [get_d20] draws when the clock reads [t]. *)
Definition d20_value (t : Z) : Z :=
  Z.rem (rand (srand (t mod 2 ^ 32))).1 20 + 1.

(** The response of [get_d20] for a number. *)
Definition d20_response (n : Z) : response :=
  {| header := "HTTP/1.1 200 OK"; resp_content_type := "text/plain";
     resp_content_length := strlen (sprintf_d n);
     body := bytes_of (sprintf_d n) |}.

(** Every entry of the cache is the file at its key. *)
Definition coherent (c : cache) : Prop :=
  ∀ k e, index c !! k = Some e →
    ∃ f, file_load k = Some f ∧
         e = {| path := k; content_type := mime_type_get k;
                content := File.data f; content_length := File.size f |}.

(** The worlds in which [main] can find itself between two
    connections. *)
Definition reachable (w : world) : Prop :=
  ∃ rng0 listenfd conns evs,
    main rng0 listenfd conns = Some (evs, Done tt w).

End Handlers.

(** The events of a call of [send_response]. *)
Definition send_events (fd : socket) (date : string) (r : response)
    : list event :=
  EvSend (sock_fd fd) date r ::
  (if sock_send_ok fd then [] else [EvStderr "send"]).

Global Arguments send_events : simpl never.
Global Arguments load_events : simpl never.

(** The responses among the events. *)
Definition sent (t : list event) : list response :=
  omap (λ e, match e with EvSend _ _ r => Some r | _ => None end) t.

(** The cache operations among the events. *)
Definition is_cache_event (e : event) : bool :=
  match e with
  | EvCacheGet _ _ | EvCachePut _ _ _ _ => true
  | _ => false
  end.



(** The file loads among the events. *)
Definition loads (t : list event) : list (string * bool) :=
  omap (λ e, match e with EvFileLoad p b => Some (p, b) | _ => None end) t.

Global Arguments sent : simpl never.
Global Arguments loads : simpl never.

End Server.

(** * The server with the buffers of the source

    The handlers once more, as [server.c] has them on the machine: every
    string is written into the array that the source declares for it, a
    write that does not fit is an overrun (the behaviour of the C program
    is undefined from there on), and a [send] on a connection that the
    peer has reset raises SIGPIPE, which ends the process since [send] is
    called with flags 0 and no handler is installed.  The events, the
    world and the collaborators are those of [Server]. *)

Module Bounded.
Import Cache Server.

(** The sizes of the arrays of the source. *)
Definition request_buffer_size : Z := 65536.
Definition max_response_size : Z := 65536 * 10.
Definition req_method_size : Z := 16.
Definition req_uri_size : Z := 1024.
Definition req_protocol_size : Z := 16.
Definition filepath_size : Z := 4096.
Definition d20_body_size : Z := 16.

(** A C string fits an array when there is room for its terminator. *)
Definition fits (s : string) (size : Z) : bool :=
  bool_decide (strlen s < size).

(** A connection as [Server.socket] has it, and whether a failed [send] on
    it raises SIGPIPE rather than returning an error. *)
Record peer : Type := mk_peer {
  p_sock : socket;
  p_sigpipe : bool
}.

(** A computation returns, ends the process through [exit], overruns an
    array or is ended by a signal. *)
Inductive outcome (A : Type) : Type :=
| Returned (a : A) (w : world)
| Exit (code : Z)
| Overrun
| Killed.
Global Arguments Returned {A} a w.
Global Arguments Exit {A} code.
Global Arguments Overrun {A}.
Global Arguments Killed {A}.

Definition B (A : Type) : Type := world → list event * outcome A.

Definition ret {A} (a : A) : B A := λ w, ([], Returned a w).

Definition bind {A C} (m : B A) (k : A → B C) : B C := λ w,
  match m w with
  | (t1, Returned a w1) => let '(t2, r) := k a w1 in (t1 ++ t2, r)
  | (t1, Exit code) => (t1, Exit code)
  | (t1, Overrun) => (t1, Overrun)
  | (t1, Killed) => (t1, Killed)
  end.

Notation "x <~ m ; k" := (bind m (λ x, k))
  (at level 20, m at level 99, k at level 200, only parsing).
Notation "m ;;; k" := (bind m (λ _, k))
  (at level 100, k at level 200, only parsing, right associativity).

(** The computations of [Server], which write into no array. *)
Definition lift {A} (m : M A) : B A := λ w,
  match m w with
  | (t, Done a w1) => (t, Returned a w1)
  | (t, Exited code) => (t, Exit code)
  end.

Definition overrun {A} : B A := λ w, ([], Overrun).
Definition killed {A} : B A := λ w, ([], Killed).

(** A write that must fit. *)
Definition guard (b : bool) : B unit := if b then ret tt else overrun.

(** What [sprintf] and [memcpy] need in [send_response]: room in
    [response] for the header block and its terminator, then for
    [content_length] bytes after the header block, which are read from a
    body that has that many. *)
Definition copy_fits (date : string) (r : response) (body_length : nat)
    : bool :=
  bool_decide (strlen (response_head date r) < max_response_size ∧
               0 ≤ resp_content_length r ∧
               strlen (response_head date r) + resp_content_length r
                 ≤ max_response_size ∧
               resp_content_length r ≤ Z.of_nat body_length).

Section Handlers.
Context {E : Env}.

(** [send_response], with [char response[max_response_size]]. *)
Definition send_response (fd : peer) (header content_type : string)
    (body : list byte) (content_length : Z) : B Z :=
  cur_time <~ lift call_time;
  let r := {| header := header; resp_content_type := content_type;
              resp_content_length := content_length;
              body := take (Z.to_nat content_length) body |} in
  let date := asctime cur_time in
  guard (copy_fits date r (length body));;;
  lift (emit (EvSend (sock_fd (p_sock fd)) date r));;;
  if sock_send_ok (p_sock fd)
  then ret (Z.of_nat (length (response_bytes date r)))
  else if p_sigpipe fd then killed
  else lift (emit (EvStderr "send"));;; ret (-1).

(** [get_d20], with [char body[16]]. *)
Definition get_d20 (fd : peer) : B unit :=
  t <~ lift call_time;
  lift (call_srand t);;;
  r <~ lift call_rand;
  let d20 := Z.rem r 20 + 1 in
  let body := sprintf_d d20 in
  guard (fits body d20_body_size);;;
  send_response fd "HTTP/1.1 200 OK" "text/plain" (bytes_of body)
                (strlen body);;;
  ret tt.

(** [resp_404]; its [snprintf] is bounded by the size of [filepath]. *)
Definition resp_404 (fd : peer) : B unit :=
  let filepath := SERVER_FILES +:+ "/404.html" in
  filedata <~ lift (call_file_load filepath);
  match filedata with
  | None =>
      lift (emit (EvStderr "cannot find system 404 file
"));;; lift (exit 3)
  | Some f =>
      let mime_type := mime_type_get filepath in
      send_response fd "HTTP/1.1 404 NOT FOUND" mime_type
                    (File.data f) (File.size f);;;
      ret tt
  end.

(** [get_file], with [char filepath[4096]] written by two [sprintf]. *)
Definition get_file (fd : peer) (request_path : string) : B unit :=
  let filepath := "./serverroot" +:+ request_path in
  guard (fits filepath filepath_size);;;
  cache_entry <~ lift (call_cache_get filepath);
  match cache_entry with
  | Some e =>
      send_response fd "HTTP/1.1 200 OK" (content_type e) (content e)
                    (content_length e);;;
      ret tt
  | None =>
      filedata <~ lift (call_file_load filepath);
      loaded <~ match filedata with
                | Some f => ret (filepath, Some f)
                | None =>
                    let filepath :=
                      "./serverroot/" +:+ request_path +:+ "/index.html" in
                    guard (fits filepath filepath_size);;;
                    filedata <~ lift (call_file_load filepath);
                    ret (filepath, filedata)
                end;
      match loaded with
      | (_, None) => resp_404 fd
      | (filepath, Some f) =>
          let mime_type := mime_type_get filepath in
          lift (call_cache_put filepath mime_type (File.data f) (File.size f));;;
          send_response fd "HTTP/1.1 200 OK" mime_type
                        (File.data f) (File.size f);;;
          ret tt
      end
  end.

(** [handle_http_request], with [char req_method[16]], [char
    req_uri[1024]] and [char req_protocol[16]] written by [sscanf] with
    three [%s] without a width. *)
Definition handle_http_request (fd : peer) : B unit :=
  match sock_recv (p_sock fd) with
  | RecvError => lift (emit (EvStderr "recv"))
  | Received req_method req_uri req_protocol =>
      guard (fits req_method req_method_size &&
             fits req_uri req_uri_size &&
             fits req_protocol req_protocol_size);;;
      if decide (req_method = "GET") then
        if decide (req_uri = "/d20") then get_d20 fd
        else get_file fd req_uri
      else ret tt
  end.

(** What [accept] yields. *)
Inductive accept_result : Type :=
| AcceptError
| Accepted (newfd : peer) (peer_name : string).

(** One turn of the loop of [main]. *)
Definition serve (a : accept_result) : B unit :=
  match a with
  | AcceptError => lift (emit (EvStderr "accept"))
  | Accepted newfd s =>
      lift (emit (EvStdout ("server: got connection from " +:+ s +:+ "
")));;;
      handle_http_request newfd;;;
      lift (emit (EvClose (sock_fd (p_sock newfd))))
  end.

Fixpoint main_loop (conns : list accept_result) : B unit :=
  match conns with
  | [] => ret tt
  | a :: rest => serve a;;; main_loop rest
  end.

Definition main (rng0 : Z) (listenfd : Z) (conns : list accept_result)
    : option (list event * outcome unit) :=
  match cache_create 10 0 with
  | None => None
  | Some cache =>
      Some ((if decide (listenfd < 0)
             then lift (emit (EvStderr "webserver: fatal error getting listening socket
"));;; lift (exit 1)
             else lift (emit (EvStdout ("webserver: waiting for connections on port "
                                          +:+ PORT +:+ "...
")));;;
                  main_loop conns)
              {| w_cache := cache; w_rng := rng0; w_ticks := 0 |})
  end.

(** What [send_response] does with a response, once the clock is read:
    an overrun when the response does not fit, else the [send], which
    succeeds, fails with an error that is reported, or raises SIGPIPE. *)
Definition sending (fd : peer) (date : string) (r : response)
    (body_length : nat) (w : world) : list event * outcome unit :=
  if copy_fits date r body_length then
    if sock_send_ok (p_sock fd)
    then ([EvSend (sock_fd (p_sock fd)) date r], Returned tt w)
    else if p_sigpipe fd
         then ([EvSend (sock_fd (p_sock fd)) date r], Killed)
         else ([EvSend (sock_fd (p_sock fd)) date r; EvStderr "send"],
               Returned tt w)
  else ([], Overrun).

(** The response that is due to a request of a URI: the file at the
    direct path, else the one at the index path, else the 404 document. *)
Definition due_response (uri : string) : option response :=
  match file_load (direct_path uri) with
  | Some f => Some (file_response "HTTP/1.1 200 OK" (direct_path uri) f)
  | None =>
      match file_load (index_path uri) with
      | Some f => Some (file_response "HTTP/1.1 200 OK" (index_path uri) f)
      | None =>
          match file_load "./serverfiles/404.html" with
          | Some f => Some (file_response "HTTP/1.1 404 NOT FOUND"
                                          "./serverfiles/404.html" f)
          | None => None
          end
      end
  end.

(** The entry that the cache holds for the path of a URI, if any, is the
    file as it is. *)
Definition fresh_at (c : cache) (uri : string) : Prop :=
  ∀ e, (cache_get c (direct_path uri)).1 = Some e →
    ∃ f, file_load (direct_path uri) = Some f ∧
         e = {| path := direct_path uri;
                content_type := mime_type_get (direct_path uri);
                content := File.data f; content_length := File.size f |}.

End Handlers.

Global Arguments fits : simpl never.
Global Arguments copy_fits : simpl never.
Global Arguments sending : simpl never.
Global Arguments send_response : simpl never.
Global Arguments resp_404 : simpl never.
Global Arguments get_d20 : simpl never.
Global Arguments get_file : simpl never.

(** A response fits the array of [send_response] with its header block. *)
Definition response_fits (date : string) (r : response) : Prop :=
  strlen (response_head date r) < max_response_size ∧
  strlen (response_head date r) + resp_content_length r ≤ max_response_size.

(** How a handler that has sent its response ends: it returns, unless the
    [send] has raised SIGPIPE. *)
Definition ended (fd : peer) (res : outcome unit) : Prop :=
  match res with
  | Returned _ _ => sock_send_ok (p_sock fd) = true ∨ p_sigpipe fd = false
  | Killed => sock_send_ok (p_sock fd) = false ∧ p_sigpipe fd = true
  | _ => False
  end.

(** The events of a computation after some earlier events. *)
Definition after {A} (t : list event) (x : list event * outcome A)
    : list event * outcome A :=
  (t ++ x.1, x.2).




End Bounded.

(** * A concrete environment *)

Module Demo.
Import Cache Server.

Definition index_html : File.file_data :=
  {| File.size := 5; File.data := bytes_of "hello" |}.
Definition docs_index : File.file_data :=
  {| File.size := 4; File.data := bytes_of "docs" |}.
Definition not_found : File.file_data :=
  {| File.size := 3; File.data := bytes_of "404" |}.

Definition demo_file_load (p : string) : option File.file_data :=
  if decide (p = "./serverroot/index.html") then Some index_html
  else if decide (p = "./serverroot//docs/index.html") then Some docs_index
  else if decide (p = "./serverfiles/404.html") then Some not_found
  else None.

(** A linear congruential generator in the place of libc's. *)
Definition demo_rand (s : Z) : Z * Z :=
  let s' := (s * 1103515245 + 12345) mod 2147483648 in (s', s').

Definition demo_env : Env :=
  {| file_load := demo_file_load;
     mime_type_get := λ _, "text/html";
     time := λ n, 1700000000 + Z.of_nat (n / 2);
     asctime := λ _, "Tue Nov 14 22:13:20 2023
";
     srand := λ seed, seed;
     rand := demo_rand |}.

(** The same environment without any file. *)
Definition bare_env : Env :=
  {| file_load := λ _, None;
     mime_type_get := λ _, "text/html";
     time := λ n, 1700000000 + Z.of_nat (n / 2);
     asctime := λ _, "Tue Nov 14 22:13:20 2023
";
     srand := λ seed, seed;
     rand := demo_rand |}.

Definition get (fd : Z) (uri : string) : socket :=
  {| sock_fd := fd; sock_recv := Received "GET" uri "HTTP/1.1";
     sock_send_ok := true |}.

Definition world0 : world :=
  {| w_cache := {| max_size := 10; index := ∅; recency := [] |};
     w_rng := 1; w_ticks := 0 |}.

(** An entry without content, for a key. *)
Definition blank (key : string) : cache_entry :=
  {| path := key; content_type := "text/plain"; content := [];
     content_length := 0 |}.

Definition eleven : list cache_entry :=
  blank <$> ["k1"; "k2"; "k3"; "k4"; "k5"; "k6"; "k7"; "k8"; "k9"; "k10";
             "k11"].

End Demo.

(** * Further observations of a run *)

Module Trace.
Import Cache Server.

(** The descriptors closed, those on which a response is sent and the keys
    put into the cache, among the events. *)
Definition closes (t : list event) : list Z :=
  omap (λ e, match e with EvClose fd => Some fd | _ => None end) t.
Definition sends_to (t : list event) : list Z :=
  omap (λ e, match e with EvSend fd _ _ => Some fd | _ => None end) t.
Definition puts (t : list event) : list string :=
  omap (λ e, match e with EvCachePut k _ _ _ => Some k | _ => None end) t.

(** The descriptors of the connections that [accept] yields. *)
Definition accepted_fds (conns : list accept_result) : list Z :=
  omap (λ a, match a with Accepted s _ => Some (sock_fd s) | _ => None end)
       conns.

(** The paths under the server's root directory, as [get_file] builds
    them. *)
Definition rooted (k : string) : Prop := ∃ rest, k = "./serverroot" +:+ rest.

(** An environment whose clock advances by 2^32 seconds at every reading. *)
Definition wrap_env : Env :=
  {| file_load := Demo.demo_file_load;
     mime_type_get := λ _, "text/html";
     time := λ n, 1700000000 + Z.of_nat n * 4294967296;
     asctime := λ _, "Tue Nov 14 22:13:20 2023
";
     srand := λ seed, seed;
     rand := Demo.demo_rand |}.

(** The world after a request of [/index.html] has put the file into the
    cache. *)
Definition world_cached : world :=
  {| w_cache := cache_put (w_cache Demo.world0) "./serverroot/index.html"
                          "text/html" (File.data Demo.index_html)
                          (File.size Demo.index_html);
     w_rng := 1; w_ticks := 1 |}.

(** The entry of that file. *)
Definition index_entry : cache_entry :=
  {| path := "./serverroot/index.html"; content_type := "text/html";
     content := File.data Demo.index_html;
     content_length := File.size Demo.index_html |}.

End Trace.

(** * Requests and files at the limits of the arrays *)

Module Limits.
Import Cache Server Bounded.

(** A connection with the request [GET uri HTTP/1.1] on which [send]
    succeeds. *)
Definition get (fd : Z) (uri : string) : peer :=
  {| p_sock := Demo.get fd uri; p_sigpipe := false |}.

(** The same with a [send] that fails: with an error, or with SIGPIPE. *)
Definition get_failing (fd : Z) (uri : string) (sigpipe : bool) : peer :=
  {| p_sock := {| sock_fd := fd;
                  sock_recv := Received "GET" uri "HTTP/1.1";
                  sock_send_ok := false |};
     p_sigpipe := sigpipe |}.

(** A file of 700000 bytes, more than [max_response_size]. *)
Definition big_file : File.file_data :=
  {| File.size := 700000;
     File.data := replicate (Z.to_nat 700000) "x"%byte |}.

(** The files of [Demo.demo_env] and the big file, at [/big] and as the
    index of [/vol]. *)
Definition big_file_load (p : string) : option File.file_data :=
  if decide (p = "./serverroot/big") then Some big_file
  else if decide (p = "./serverroot//vol/index.html") then Some big_file
  else Demo.demo_file_load p.

Definition big_env : Env :=
  {| file_load := big_file_load;
     mime_type_get := λ _, "text/html";
     time := λ n, 1700000000 + Z.of_nat (n / 2);
     asctime := λ _, "Tue Nov 14 22:13:20 2023
";
     srand := λ seed, seed;
     rand := Demo.demo_rand |}.

(** The files of [Demo.demo_env] in a file system where [..] leads from
    the root directory to the 404 document. *)
Definition dotdot_env : Env :=
  {| file_load := λ p,
       if decide (p = "./serverroot/../serverfiles/404.html")
       then Some Demo.not_found else Demo.demo_file_load p;
     mime_type_get := λ _, "text/html";
     time := λ n, 1700000000 + Z.of_nat (n / 2);
     asctime := λ _, "Tue Nov 14 22:13:20 2023
";
     srand := λ seed, seed;
     rand := Demo.demo_rand |}.

(** A URI of 1101 characters. *)
Fixpoint pad (n : nat) : string :=
  match n with
  | O => EmptyString
  | S n => "a" +:+ pad n
  end.
Definition long_uri : string := "/" +:+ pad 1100.

(** The world of a server that put [/index.html] into its cache when the
    file read [old]. *)
Definition stale_world : world :=
  {| w_cache := cache_put (w_cache Demo.world0) "./serverroot/index.html"
                          "text/html" (bytes_of "old") 3;
     w_rng := 1; w_ticks := 1 |}.

End Limits.

(** * Properties of the content cache *)

Section CacheProperties.
Import Cache.

Implicit Types (c : cache) (e : cache_entry) (k key : string).

Lemma cache_create_Some C h c :
  cache_create C h = Some c →
  1 ≤ C ∧ c = {| max_size := C; index := ∅; recency := [] |}.
Proof.
  unfold cache_create. case_decide; [|done].
  intros [= <-]. done.
Qed.

Lemma wf_create C h c : cache_create C h = Some c → wf c.
Proof.
  intros [HC ->]%cache_create_Some. split; simpl.
  - done.
  - rewrite map_size_empty. lia.
  - constructor.
  - intros k. rewrite lookup_empty, elem_of_nil. split; [done|].
    by intros [? ?].
Qed.

Lemma promote_NoDup key r : NoDup r → NoDup (promote key r).
Proof.
  intros Hr. unfold promote. apply NoDup_cons. split.
  - rewrite list_elem_of_filter. naive_solver.
  - by apply NoDup_filter.
Qed.

Lemma elem_of_promote key r k : k ∈ promote key r ↔ k = key ∨ k ∈ r.
Proof.
  unfold promote. rewrite elem_of_cons, list_elem_of_filter.
  destruct (decide (k = key)); naive_solver.
Qed.

(** [cache_get] leaves the capacity and the index as they are. *)
Lemma cache_get_index c key : index (cache_get c key).2 = index c.
Proof. unfold cache_get. by destruct (index c !! key). Qed.

Lemma cache_get_max_size c key : max_size (cache_get c key).2 = max_size c.
Proof. unfold cache_get. by destruct (index c !! key). Qed.

Lemma cache_get_result c key : (cache_get c key).1 = index c !! key.
Proof. unfold cache_get. by destruct (index c !! key). Qed.

Lemma wf_get c key : wf c → wf (cache_get c key).2.
Proof.
  intros [H1 H2 H3 H4]. unfold cache_get.
  destruct (index c !! key) as [e|] eqn:Hk; simpl; [|done].
  split; simpl; [done|done|by apply promote_NoDup|].
  intros k. rewrite elem_of_promote, H4. split; [|by auto].
  intros [->|?]; [by rewrite Hk|done].
Qed.

(** Eviction from a full, well-formed cache removes exactly one entry. *)
Lemma evict_full c :
  wf c → Z.of_nat (size (index c)) = max_size c →
  ∃ victim rest,
    recency c = rest ++ [victim] ∧
    evict c = {| max_size := max_size c;
                 index := delete victim (index c);
                 recency := rest |} ∧
    S (size (index (evict c))) = size (index c).
Proof.
  intros [H1 H2 H3 H4] Hfull. unfold evict.
  destruct (last (recency c)) as [victim|] eqn:Hlast.
  - apply last_Some in Hlast as [rest Hrest].
    exists victim, rest. rewrite Hrest, removelast_last.
    split; [done|]. split; [done|]. simpl.
    assert (is_Some (index c !! victim)) as Hv.
    { apply H4. rewrite Hrest. set_solver. }
    rewrite map_size_delete_Some by done.
    destruct Hv as [x Hx].
    assert (size (index c) ≠ 0%nat); [|lia].
    apply map_size_ne_0_lookup. eauto.
  - apply last_None in Hlast.
    assert (size (index c) ≠ 0%nat) as Hne by lia.
    apply map_size_ne_0_lookup in Hne as [i Hi].
    apply H4 in Hi. rewrite Hlast in Hi. by apply elem_of_nil in Hi.
Qed.

Lemma wf_evict c :
  wf c → Z.of_nat (size (index c)) = max_size c →
  wf (evict c) ∧ Z.of_nat (size (index (evict c))) < max_size c.
Proof.
  intros Hwf Hfull.
  destruct (evict_full c Hwf Hfull) as (victim & rest & Hr & Hev & Hsz).
  destruct Hwf as [H1 H2 H3 H4].
  rewrite Hr in H3. apply NoDup_app in H3 as (Hrest & Hdisj & _).
  split; [|lia]. rewrite Hev in *. simpl in *. split; simpl.
  - done.
  - lia.
  - done.
  - intros k. destruct (decide (k = victim)) as [->|Hne].
    + rewrite lookup_delete_eq. split.
      * intros Hin. apply Hdisj in Hin. set_solver.
      * by intros [? ?].
    + rewrite lookup_delete_ne by done. rewrite <- H4, Hr. set_solver.
Qed.

Lemma wf_put c key ctype data len : wf c → wf (cache_put c key ctype data len).
Proof.
  intros Hwf. unfold cache_put.
  destruct (index c !! key) as [old|] eqn:Hk.
  - destruct Hwf as [H1 H2 H3 H4]. split; simpl.
    + done.
    + by rewrite map_size_insert_Some.
    + by apply promote_NoDup.
    + intros k. rewrite elem_of_promote, H4.
      destruct (decide (k = key)) as [->|Hne].
      * rewrite lookup_insert_eq. naive_solver.
      * rewrite lookup_insert_ne by done. naive_solver.
  - assert (∃ c', (if decide (Z.of_nat (size (index c)) = max_size c)
                   then evict c else c) = c' ∧ wf c' ∧
                  max_size c' = max_size c ∧
                  Z.of_nat (size (index c')) < max_size c ∧
                  index c' !! key = None) as (c' & -> & Hwf' & Hm & Hlt & Hk').
    { case_decide as Hfull.
      - destruct (wf_evict c Hwf Hfull) as [Hwfe Hlte].
        destruct (evict_full c Hwf Hfull) as (v & rest & _ & Hev & _).
        exists (evict c). split; [done|]. split; [exact Hwfe|].
        split; [by rewrite Hev|]. split; [exact Hlte|].
        rewrite Hev. simpl. apply lookup_delete_None. by right.
      - exists c. destruct Hwf as [? Hb ? ?].
        split; [done|]. split; [by split|]. split; [done|].
        split; [lia|done]. }
    destruct Hwf' as [H1 H2 H3 H4]. split; simpl.
    + done.
    + rewrite map_size_insert_None by done. lia.
    + apply NoDup_cons. split; [|done]. rewrite H4, Hk'. by intros [? ?].
    + intros k. rewrite elem_of_cons, H4.
      destruct (decide (k = key)) as [->|Hne].
      * rewrite lookup_insert_eq. naive_solver.
      * rewrite lookup_insert_ne by done. naive_solver.
Qed.

Lemma cache_put_max_size c key ctype data len :
  max_size (cache_put c key ctype data len) = max_size c.
Proof.
  unfold cache_put. destruct (index c !! key); [done|]. simpl.
  case_decide; [|done]. unfold evict. by destruct (last (recency c)).
Qed.

Lemma wf_put_all c es : wf c → wf (put_all c es).
Proof.
  revert c. induction es as [|e es IH]; intros c Hwf; [done|].
  simpl. apply IH. by apply wf_put.
Qed.

Lemma put_all_max_size c es : max_size (put_all c es) = max_size c.
Proof.
  revert c. induction es as [|e es IH]; intros c; [done|].
  simpl. rewrite IH. apply cache_put_max_size.
Qed.

Lemma bindings_fst es : (bindings es).*1 = path <$> es.
Proof. unfold bindings. rewrite <- list_fmap_compose. done. Qed.

Lemma bindings_length es : length (bindings es) = length es.
Proof. unfold bindings. apply length_fmap. Qed.

Lemma bindings_snoc es e : bindings (es ++ [e]) = bindings es ++ [(path e, e)].
Proof. unfold bindings. by rewrite fmap_app. Qed.

Lemma put_all_snoc c es e : put_all c (es ++ [e]) = put_entry (put_all c es) e.
Proof. unfold put_all. by rewrite foldl_app. Qed.

(** A put of an absent key where there is room. *)
Lemma put_entry_room C (m : gmap string cache_entry) r e :
  m !! path e = None → Z.of_nat (size m) ≠ C →
  put_entry {| max_size := C; index := m; recency := r |} e =
  {| max_size := C; index := <[path e := e]> m; recency := path e :: r |}.
Proof.
  intros Hk Hsz. unfold put_entry, cache_put. cbn [index max_size recency].
  rewrite Hk, decide_False by done. by destruct e.
Qed.

(** A put of an absent key into a full cache. *)
Lemma put_entry_full C (m : gmap string cache_entry) r victim e :
  m !! path e = None → Z.of_nat (size m) = C →
  put_entry {| max_size := C; index := m; recency := r ++ [victim] |} e =
  {| max_size := C; index := <[path e := e]> (delete victim m);
     recency := path e :: r |}.
Proof.
  intros Hk Hsz. unfold put_entry, cache_put. cbn [index max_size recency].
  rewrite Hk, decide_True by done. unfold evict. cbn [index max_size recency].
  rewrite last_snoc, removelast_last. by destruct e.
Qed.

(** As long as the capacity is not exceeded, puts of distinct keys into
    an empty cache evict nothing: the recency sequence lists the keys
    from the last inserted to the first. *)
Lemma put_all_fresh C es :
  NoDup (path <$> es) → Z.of_nat (length es) ≤ C →
  put_all {| max_size := C; index := ∅; recency := [] |} es =
  {| max_size := C;
     index := list_to_map (bindings es);
     recency := reverse (path <$> es) |}.
Proof.
  induction es as [|e es IH] using rev_ind; intros Hnd Hlen; [done|].
  rewrite fmap_app in Hnd. apply NoDup_app in Hnd as (Hnd & Hdisj & _).
  rewrite length_app in Hlen. simpl in Hlen.
  rewrite put_all_snoc, IH by (done || lia).
  assert (path e ∉ path <$> es) as Hfresh.
  { intros Hin. apply (Hdisj _ Hin). simpl. set_solver. }
  rewrite put_entry_room.
  - rewrite fmap_app, bindings_snoc.
    change (path <$> [e]) with [path e]. rewrite reverse_snoc.
    by rewrite list_to_map_snoc by (by rewrite bindings_fst).
  - apply not_elem_of_list_to_map_1. by rewrite bindings_fst.
  - rewrite map_size_list_to_map by (by rewrite bindings_fst).
    rewrite bindings_length. lia.
Qed.

(** The cache after one more distinct key than its capacity: the first
    key has been evicted and the others are left. *)
Lemma put_all_overflow C e1 es eN :
  NoDup (path <$> e1 :: es ++ [eN]) →
  Z.of_nat (length (e1 :: es)) = C →
  put_all {| max_size := C; index := ∅; recency := [] |} (e1 :: es ++ [eN]) =
  {| max_size := C;
     index := list_to_map (bindings (es ++ [eN]));
     recency := reverse (path <$> es ++ [eN]) |}.
Proof.
  intros Hnd Hlen.
  change (e1 :: es ++ [eN]) with ((e1 :: es) ++ [eN]) in *.
  rewrite fmap_app in Hnd. apply NoDup_app in Hnd as (Hnd & Hdisj & _).
  rewrite put_all_snoc, put_all_fresh by (done || lia).
  assert (path eN ∉ path <$> e1 :: es) as Hfresh.
  { intros Hin. apply (Hdisj _ Hin). simpl. set_solver. }
  rewrite fmap_cons, reverse_cons.
  rewrite put_entry_full.
  - change (bindings (e1 :: es)) with ((path e1, e1) :: bindings es).
    rewrite list_to_map_cons, delete_insert_eq, delete_id.
    2:{ apply not_elem_of_list_to_map_1. rewrite bindings_fst.
        rewrite fmap_cons in Hnd. by apply NoDup_cons in Hnd as [? _]. }
    rewrite fmap_app, bindings_snoc.
    change (path <$> [eN]) with [path eN]. rewrite reverse_snoc.
    rewrite list_to_map_snoc; [done|].
    rewrite bindings_fst. set_solver.
  - apply not_elem_of_list_to_map_1. by rewrite bindings_fst.
  - rewrite map_size_list_to_map by (by rewrite bindings_fst).
    by rewrite bindings_length.
Qed.

(** C1: for every sequence of put calls with distinct keys on a cache
    created with capacity 10, after each call (that is, after every
    prefix of the sequence) the index holds at most 10 entries. *)
Theorem capacity_invariant (hashsize : Z) (c0 : cache) (es : list cache_entry) (n : nat) :
  cache_create 10 hashsize = Some c0 →
  NoDup (path <$> es) →
  (size (index (put_all c0 (take n es))) ≤ 10)%nat.
Proof.
  intros Hc _.
  pose proof (wf_put_all c0 (take n es) (wf_create _ _ _ Hc)) as [_ Hb _ _].
  rewrite put_all_max_size in Hb.
  apply cache_create_Some in Hc as [_ ->]. simpl in Hb. lia.
Qed.

(** C2: in a cache of capacity C, after the puts of C+1 distinct keys
    k1..k(C+1) in order and no get in between, a get of k1 finds
    nothing and a get of each of k2..k(C+1) finds the entry that was
    put; no other key is in the cache. *)
Theorem lru_evicts_first (C hashsize : Z) (c0 : cache) (e1 : cache_entry)
    (es : list cache_entry) :
  cache_create C hashsize = Some c0 →
  NoDup (path <$> e1 :: es) →
  Z.of_nat (length (e1 :: es)) = C + 1 →
  let c := put_all c0 (e1 :: es) in
  (cache_get c (path e1)).1 = None ∧
  (∀ e, e ∈ es → (cache_get c (path e)).1 = Some e) ∧
  (∀ k, is_Some (cache_get c k).1 → k ∈ path <$> es).
Proof.
  intros [HC ->]%cache_create_Some Hnd Hlen c.
  destruct es as [|eN es _] using rev_ind.
  { simpl in Hlen. lia. }
  rewrite length_cons, length_app in Hlen. simpl in Hlen.
  assert (c = {| max_size := C;
                 index := list_to_map (bindings (es ++ [eN]));
                 recency := reverse (path <$> es ++ [eN]) |}) as ->.
  { subst c. apply put_all_overflow; [done|]. simpl. lia. }
  apply NoDup_cons in Hnd as [Hk1 Hnd].
  split; [|split].
  - rewrite cache_get_result. simpl.
    apply not_elem_of_list_to_map_1. by rewrite bindings_fst.
  - intros e He. rewrite cache_get_result. simpl.
    apply elem_of_list_to_map_1; [by rewrite bindings_fst|].
    unfold bindings. apply list_elem_of_fmap. eauto.
  - intros k. rewrite cache_get_result. simpl. intros Hk.
    rewrite <- bindings_fst.
    destruct (decide (k ∈ (bindings (es ++ [eN])).*1)) as [|Hn]; [done|].
    apply not_elem_of_list_to_map_1 in Hn. rewrite Hn in Hk.
    by destruct Hk.
Qed.

End CacheProperties.

(** * Properties of the request handlers *)

Section ServerProperties.
Import Cache Server.
Context {E : Env}.

Implicit Types (w : world) (fd : socket) (f : File.file_data).

Lemma bytes_of_length s : length (bytes_of s) = String.length s.
Proof.
  unfold bytes_of, String.list_byte_of_string.
  induction s as [|a s IH]; simpl in *; [done|]. by rewrite IH.
Qed.

Lemma take_strlen s : take (Z.to_nat (strlen s)) (bytes_of s) = bytes_of s.
Proof.
  apply take_ge. rewrite bytes_of_length. unfold strlen. lia.
Qed.

Lemma sent_send_events fd date r : sent (send_events fd date r) = [r].
Proof. unfold send_events. by destruct (sock_send_ok fd). Qed.

Lemma sent_cons e t :
  sent (e :: t) = (if e is EvSend _ _ r then [r] else []) ++ sent t.
Proof. by destruct e. Qed.

Lemma loads_cons e t :
  loads (e :: t) = (if e is EvFileLoad p b then [(p, b)] else []) ++ loads t.
Proof. by destruct e. Qed.

Lemma sent_app t1 t2 : sent (t1 ++ t2) = sent t1 ++ sent t2.
Proof. unfold sent. apply omap_app. Qed.

Lemma loads_app t1 t2 : loads (t1 ++ t2) = loads t1 ++ loads t2.
Proof. unfold loads. apply omap_app. Qed.


(** ** What each handler does, step by step *)

Lemma send_response_run fd h ct b len w :
  ∃ rv, send_response fd h ct b len w =
    (send_events fd (asctime (time (w_ticks w)))
       {| header := h; resp_content_type := ct; resp_content_length := len;
          body := take (Z.to_nat len) b |},
     Done rv (tick w)).
Proof.
  unfold send_response, send_events, bind, call_time, emit, ret. simpl.
  destruct (sock_send_ok fd); simpl; eauto.
Qed.

Lemma send_response_unit_run fd h ct b len w :
  (send_response fd h ct b len;; ret tt) w =
    (send_events fd (asctime (time (w_ticks w)))
       {| header := h; resp_content_type := ct; resp_content_length := len;
          body := take (Z.to_nat len) b |},
     Done tt (tick w)).
Proof.
  destruct (send_response_run fd h ct b len w) as [rv Hrv].
  unfold bind at 1. rewrite Hrv. unfold ret. by rewrite app_nil_r.
Qed.

Lemma get_d20_run fd w :
  get_d20 fd w =
    (send_events fd (asctime (time (S (w_ticks w))))
       (d20_response (d20_value (time (w_ticks w)))),
     Done tt (tick (set_rng (rand (srand (time (w_ticks w) mod 2 ^ 32))).2
                            (tick w)))).
Proof.
  unfold get_d20. unfold bind at 1. unfold call_time at 1.
  unfold bind at 1. unfold call_srand at 1.
  unfold bind at 1. unfold call_rand at 1.
  rewrite send_response_unit_run. simpl.
  unfold d20_response, d20_value. by rewrite take_strlen.
Qed.

Lemma resp_404_run fd w :
  resp_404 fd w =
    match file_load not_found_path with
    | Some f =>
        (EvFileLoad not_found_path true ::
         send_events fd (asctime (time (w_ticks w)))
           {| header := "HTTP/1.1 404 NOT FOUND";
              resp_content_type := mime_type_get not_found_path;
              resp_content_length := File.size f;
              body := take (Z.to_nat (File.size f)) (File.data f) |},
         Done tt (tick w))
    | None =>
        ([EvFileLoad not_found_path false;
          EvStderr "cannot find system 404 file
"], Exited 3)
    end.
Proof.
  unfold resp_404. fold not_found_path.
  unfold bind at 1. unfold call_file_load, bind at 1, emit, ret at 1.
  destruct (file_load not_found_path) as [f|]; simpl.
  - by rewrite send_response_unit_run.
  - done.
Qed.

Lemma set_cache_id w : set_cache (w_cache w) w = w.
Proof. by destruct w. Qed.

Lemma get_file_run fd p w :
  get_file fd p w =
    match index (w_cache w) !! direct_path p with
    | Some e =>
        (EvCacheGet (direct_path p) true ::
         send_events fd (asctime (time (w_ticks w)))
           {| header := "HTTP/1.1 200 OK";
              resp_content_type := content_type e;
              resp_content_length := content_length e;
              body := take (Z.to_nat (content_length e)) (content e) |},
         Done tt (tick (set_cache (cache_get (w_cache w) (direct_path p)).2 w)))
    | None =>
        match resolve p with
        | Some (fp, f) =>
            (EvCacheGet (direct_path p) false :: load_events p ++
             EvCachePut fp (mime_type_get fp) (File.data f) (File.size f) ::
             send_events fd (asctime (time (w_ticks w)))
               {| header := "HTTP/1.1 200 OK";
                  resp_content_type := mime_type_get fp;
                  resp_content_length := File.size f;
                  body := take (Z.to_nat (File.size f)) (File.data f) |},
             Done tt (tick (set_cache
                              (cache_put (w_cache w) fp (mime_type_get fp)
                                         (File.data f) (File.size f)) w)))
        | None =>
            (EvCacheGet (direct_path p) false :: load_events p ++
             (resp_404 fd w).1, (resp_404 fd w).2)
        end
    end.
Proof.
  unfold get_file. fold (direct_path p). fold (index_path p).
  unfold bind at 1. unfold call_cache_get at 1.
  rewrite cache_get_result.
  destruct (index (w_cache w) !! direct_path p) as [e|] eqn:Hk.
  - rewrite send_response_unit_run. simpl. done.
  - assert ((cache_get (w_cache w) (direct_path p)).2 = w_cache w) as ->.
    { unfold cache_get. by rewrite Hk. }
    rewrite set_cache_id.
    unfold resolve, load_events.
    unfold bind at 1. unfold call_file_load at 1, bind at 1, emit, ret at 1.
    destruct (file_load (direct_path p)) as [f|] eqn:Hd; simpl.
    + unfold bind at 1. unfold ret at 1. unfold bind at 1.
      unfold call_cache_put at 1.
      rewrite send_response_unit_run. simpl. done.
    + unfold bind at 1. unfold bind at 1. unfold call_file_load at 1, bind at 1, emit, ret at 1.
      destruct (file_load (index_path p)) as [f|] eqn:Hi; simpl.
      * unfold bind at 1. unfold call_cache_put at 1.
        rewrite send_response_unit_run. simpl. done.
      * by destruct (resp_404 fd w).
Qed.

Lemma handle_http_request_d20 fd proto w :
  sock_recv fd = Received "GET" "/d20" proto →
  handle_http_request fd w = get_d20 fd w.
Proof. intros Hr. unfold handle_http_request. by rewrite Hr. Qed.

Lemma handle_http_request_file fd uri proto w :
  sock_recv fd = Received "GET" uri proto → uri ≠ "/d20" →
  handle_http_request fd w = get_file fd uri w.
Proof.
  intros Hr Hne. unfold handle_http_request. rewrite Hr.
  rewrite decide_True by done. by rewrite decide_False by done.
Qed.


Lemma serve_run fd peer w :
  serve (Accepted fd peer) w =
    match handle_http_request fd w with
    | (t, Done _ w') =>
        (EvStdout ("server: got connection from " +:+ peer +:+ "
") :: t ++ [EvClose (sock_fd fd)], Done tt w')
    | (t, Exited code) =>
        (EvStdout ("server: got connection from " +:+ peer +:+ "
") :: t, Exited code)
    end.
Proof.
  unfold serve. unfold bind at 1. unfold emit at 1. unfold bind at 1.
  by destruct (handle_http_request fd w) as [t [[] w'|code]].
Qed.

(** ** The cache holds files as they are *)

Lemma cache_put_lookup (c : cache) key ctype data len k e :
  index (cache_put c key ctype data len) !! k = Some e →
  (k = key ∧ e = {| path := key; content_type := ctype;
                    content := data; content_length := len |}) ∨
  index c !! k = Some e.
Proof.
  unfold cache_put. destruct (index c !! key) as [old|] eqn:Hk; simpl.
  - rewrite lookup_insert. case_decide; naive_solver.
  - rewrite lookup_insert. case_decide as Heq; [naive_solver|].
    case_decide; [|by auto]. unfold evict.
    destruct (last (recency c)); simpl; [|by auto].
    rewrite lookup_delete_Some. naive_solver.
Qed.


Lemma coherent_put (c : cache) fp f :
  coherent c → file_load fp = Some f →
  coherent (cache_put c fp (mime_type_get fp) (File.data f) (File.size f)).
Proof.
  intros Hc Hf k e [[-> ->]|Hk]%cache_put_lookup; [by eauto|by apply Hc].
Qed.

Lemma coherent_get (c : cache) key : coherent c → coherent (cache_get c key).2.
Proof. intros Hc k e. rewrite cache_get_index. apply Hc. Qed.

Lemma resolve_Some p fp f : resolve p = Some (fp, f) → file_load fp = Some f.
Proof.
  unfold resolve.
  destruct (file_load (direct_path p)) eqn:?; [by intros [= <- <-]|].
  destruct (file_load (index_path p)) eqn:?; [by intros [= <- <-]|done].
Qed.

Lemma get_file_coherent fd p w t w' :
  coherent (w_cache w) → get_file fd p w = (t, Done tt w') →
  coherent (w_cache w').
Proof.
  intros Hc. rewrite get_file_run.
  destruct (index (w_cache w) !! direct_path p) as [e|].
  - intros [= _ <-]. simpl. by apply coherent_get.
  - destruct (resolve p) as [[fp f]|] eqn:Hres.
    + intros [= _ <-]. simpl. apply coherent_put; [done|].
      by apply resolve_Some in Hres.
    + rewrite resp_404_run. destruct (file_load not_found_path); simpl.
      * by intros [= _ <-].
      * done.
Qed.

Lemma handle_http_request_coherent fd w t w' :
  coherent (w_cache w) → handle_http_request fd w = (t, Done tt w') →
  coherent (w_cache w').
Proof.
  intros Hc. unfold handle_http_request.
  destruct (sock_recv fd) as [|m uri proto].
  - by intros [= _ <-].
  - case_decide; [|by intros [= _ <-]].
    case_decide.
    + rewrite get_d20_run. by intros [= _ <-].
    + by apply get_file_coherent.
Qed.

Lemma serve_coherent a w t w' :
  coherent (w_cache w) → serve a w = (t, Done tt w') → coherent (w_cache w').
Proof.
  intros Hc. destruct a as [|fd peer].
  - by intros [= _ <-].
  - rewrite serve_run.
    destruct (handle_http_request fd w) as [t' [[] w1|code]] eqn:Hh; [|done].
    intros [= _ <-]. by eapply handle_http_request_coherent.
Qed.

Lemma main_loop_coherent conns w t w' :
  coherent (w_cache w) → main_loop conns w = (t, Done tt w') →
  coherent (w_cache w').
Proof.
  revert w t. induction conns as [|a conns IH]; intros w t Hc; simpl.
  - by intros [= _ <-].
  - unfold bind.
    destruct (serve a w) as [t1 [[] w1|code]] eqn:Hs; [|done].
    destruct (main_loop conns w1) as [t2 r] eqn:Hm.
    intros [= _ ->]. eapply IH; [|done]. by eapply serve_coherent.
Qed.

Lemma reachable_coherent w : reachable w → coherent (w_cache w).
Proof.
  intros (rng0 & listenfd & conns & evs & Hmain).
  unfold main in Hmain. simpl in Hmain.
  case_decide; [done|]. injection Hmain as Hmain.
  unfold bind at 1 in Hmain. unfold emit at 1 in Hmain.
  destruct (main_loop conns _) as [t r] eqn:Hm.
  injection Hmain as _ ->.
  eapply main_loop_coherent; [|done]. simpl.
  intros k e. simpl. by rewrite lookup_empty.
Qed.

(** ** The random-value endpoint *)



(** C4: handling a request GET /d20 performs no cache operation (and no
    file load), and leaves the cache as it was. *)
Theorem d20_leaves_cache fd w proto :
  sock_recv fd = Received "GET" "/d20" proto →
  ∃ evs w',
    handle_http_request fd w = (evs, Done tt w') ∧
    w_cache w' = w_cache w ∧
    Forall (λ e, is_cache_event e = false) evs ∧
    loads evs = [].
Proof.
  intros Hr. rewrite (handle_http_request_d20 _ _ _ Hr), get_d20_run.
  eexists _, _. split; [done|]. split; [done|].
  unfold send_events. destruct (sock_send_ok fd); split; by repeat constructor.
Qed.

(** C10: the response to GET /d20 is a function of the value that [time]
    returns to [get_d20]: two such requests whose clock readings are
    equal get equal responses, whatever the states of the generator
    were. *)
Theorem d20_same_second fd1 fd2 w1 w2 proto1 proto2 :
  sock_recv fd1 = Received "GET" "/d20" proto1 →
  sock_recv fd2 = Received "GET" "/d20" proto2 →
  time (w_ticks w1) = time (w_ticks w2) →
  sent (handle_http_request fd1 w1).1 = sent (handle_http_request fd2 w2).1 ∧
  sent (handle_http_request fd1 w1).1 =
    [d20_response (d20_value (time (w_ticks w1)))].
Proof.
  intros Hr1 Hr2 Ht.
  rewrite (handle_http_request_d20 _ _ _ Hr1), (handle_http_request_d20 _ _ _ Hr2).
  rewrite !get_d20_run. cbn [fst]. rewrite !sent_send_events. by rewrite Ht.
Qed.

(** ** File paths and file bodies *)

Lemma take_file `{!FileLaw E} p f :
  file_load p = Some f → take (Z.to_nat (File.size f)) (File.data f) = File.data f.
Proof. intros Hf. apply take_ge. rewrite (file_load_size _ _ Hf). lia. Qed.

Lemma sent_load_events p : sent (load_events p) = [].
Proof. unfold load_events. by destruct (file_load (direct_path p)). Qed.

Lemma length_append (s1 s2 : string) :
  String.length (s1 +:+ s2) = (String.length s1 + String.length s2)%nat.
Proof.
  induction s1 as [|a s1 IH]; [done|].
  change (String a s1 +:+ s2) with (String a (s1 +:+ s2)).
  simpl. by rewrite IH.
Qed.


(** ** The 404 document *)

Lemma main_no_listener rng0 listenfd conns :
  listenfd < 0 →
  main rng0 listenfd conns =
    Some ([EvStderr "webserver: fatal error getting listening socket
"], Exited 1).
Proof. intros Hl. unfold main. simpl. by rewrite decide_True by done. Qed.

(** C7: when the 404 document cannot be loaded, [resp_404] sends nothing
    and ends the process with exit code 3, which is not zero and differs
    from the code with which [main] ends for want of a listening socket;
    a request that needs the 404 response so ends the loop of [main]:
    its connection is not closed by the loop and no later connection is
    served. *)
Theorem missing_404_is_fatal fd w :
  file_load "./serverfiles/404.html" = None →
  ∃ code evs,
    resp_404 fd w = (evs, Exited code) ∧ sent evs = [] ∧
    code = 3 ∧ code ≠ 0 ∧
    (∀ rng0 listenfd conns evs' code',
       listenfd < 0 →
       main rng0 listenfd conns = Some (evs', Exited code') → code ≠ code') ∧
    (∀ uri proto peer rest,
       sock_recv fd = Received "GET" uri proto → uri ≠ "/d20" →
       (cache_get (w_cache w) (direct_path uri)).1 = None →
       resolve uri = None →
       ∃ evs1, main_loop (Accepted fd peer :: rest) w = (evs1, Exited code) ∧
               sent evs1 = [] ∧ EvClose (sock_fd fd) ∉ evs1).
Proof.
  intros H4. exists 3. eexists. rewrite resp_404_run.
  change not_found_path with "./serverfiles/404.html". rewrite H4.
  split; [done|]. split; [done|]. split; [done|]. split; [done|]. split.
  - intros rng0 listenfd conns evs' code' Hl.
    rewrite main_no_listener by done. by intros [= _ <-].
  - intros uri proto peer rest Hr Hne Hk Hres. rewrite cache_get_result in Hk.
    cbn [main_loop]. unfold bind at 1. rewrite serve_run.
    rewrite (handle_http_request_file _ _ _ _ Hr Hne), get_file_run, Hk, Hres.
    rewrite resp_404_run.
    change not_found_path with "./serverfiles/404.html". rewrite H4.
    cbn [fst snd]. eexists. split; [done|].
    unfold load_events, resolve in *.
    destruct (file_load (direct_path uri)); [done|].
    destruct (file_load (index_path uri)); [done|].
    split; [done|]. simpl. set_solver.
Qed.

(** ** Statuses *)









(** ** The index fallback and the cache *)




End ServerProperties.

(** * The model on concrete inputs *)

Section Examples.
Import Cache Server Demo.



Lemma demo_file_law : FileLaw demo_env.
Proof.
  intros p f. simpl. unfold demo_file_load.
  repeat case_decide; by intros [= <-].
Qed.

Example paths_of_docs :
  direct_path "/docs" = "./serverroot/docs" ∧
  index_path "/docs" = "./serverroot//docs/index.html" ∧
  not_found_path = "./serverfiles/404.html".
Proof. done. Qed.

Example sprintf_d_1_to_20 :
  sprintf_d <$> [1; 2; 3; 4; 5; 6; 7; 8; 9; 10;
                 11; 12; 13; 14; 15; 16; 17; 18; 19; 20] =
  ["1"; "2"; "3"; "4"; "5"; "6"; "7"; "8"; "9"; "10";
   "11"; "12"; "13"; "14"; "15"; "16"; "17"; "18"; "19"; "20"].
Proof. vm_compute. reflexivity. Qed.

Example wire_of_d20 :
  response_bytes "Tue Nov 14 22:13:20 2023
" (d20_response 17) =
  bytes_of "HTTP/1.1 200 OK
Date: Tue Nov 14 22:13:20 2023
Connection: close
Content-Type: text/plain
Content-Length: 2

17".
Proof. vm_compute. reflexivity. Qed.

(** Promotion on read: with capacity 2 and A, B put in order, a get of A
    followed by a put of C evicts B and keeps A. *)
Example promotion_on_read :
  let c := put_entry (put_entry {| max_size := 2; index := ∅; recency := [] |}
                                (blank "A")) (blank "B") in
  let c := put_entry (cache_get c "A").2 (blank "C") in
  recency c = ["C"; "A"] ∧ index c !! "B" = None ∧
  index c !! "A" = Some (blank "A").
Proof. vm_compute. done. Qed.

(** Two requests of a file: the second is served from the cache. *)
Example index_html_twice :
  fst <$> @main demo_env 1 3 [Accepted (get 4 "/index.html") "a";
                              Accepted (get 5 "/index.html") "a"] =
  Some [EvStdout "webserver: waiting for connections on port 3490...
";
        EvStdout "server: got connection from a
";
        EvCacheGet "./serverroot/index.html" false;
        EvFileLoad "./serverroot/index.html" true;
        EvCachePut "./serverroot/index.html" "text/html" (bytes_of "hello") 5;
        EvSend 4 "Tue Nov 14 22:13:20 2023
" (@file_response demo_env "HTTP/1.1 200 OK" "./serverroot/index.html" index_html);
        EvClose 4;
        EvStdout "server: got connection from a
";
        EvCacheGet "./serverroot/index.html" true;
        EvSend 5 "Tue Nov 14 22:13:20 2023
" (@file_response demo_env "HTTP/1.1 200 OK" "./serverroot/index.html" index_html);
        EvClose 5].
Proof. vm_compute. reflexivity. Qed.

End Examples.


(** * The theorems at concrete inputs *)

Section Witnesses.
Import Cache Server Demo.

(** Eleven distinct keys put into the cache of capacity 10. *)
Lemma capacity_invariant_witness :
  cache_create 10 0 = Some (w_cache world0) ∧
  NoDup (path <$> eleven) ∧
  (size (index (put_all (w_cache world0) (take 11 eleven))) ≤ 10)%nat.
Proof.
  assert (NoDup (path <$> eleven)) as Hnd.
  { apply (bool_decide_unpack (NoDup (path <$> eleven))). vm_compute. exact I. }
  split; [reflexivity|]. split; [exact Hnd|].
  apply (capacity_invariant 0 (w_cache world0) eleven 11); [reflexivity|exact Hnd].
Defined.

(** Three distinct keys put into a cache of capacity 2. *)
Lemma lru_evicts_first_witness :
  let c0 := {| max_size := 2; index := ∅; recency := [] |} in
  let c := put_all c0 [blank "k1"; blank "k2"; blank "k3"] in
  cache_create 2 0 = Some c0 ∧
  NoDup (path <$> [blank "k1"; blank "k2"; blank "k3"]) ∧
  Z.of_nat (length [blank "k1"; blank "k2"; blank "k3"]) = 2 + 1 ∧
  (cache_get c "k1").1 = None ∧
  (∀ e, e ∈ [blank "k2"; blank "k3"] → (cache_get c (path e)).1 = Some e) ∧
  (∀ k, is_Some (cache_get c k).1 → k ∈ path <$> [blank "k2"; blank "k3"]).
Proof.
  intros c0 c.
  assert (NoDup (path <$> [blank "k1"; blank "k2"; blank "k3"])) as Hnd.
  { apply (bool_decide_unpack
             (NoDup (path <$> [blank "k1"; blank "k2"; blank "k3"]))).
    vm_compute. exact I. }
  split; [reflexivity|]. split; [exact Hnd|]. split; [reflexivity|].
  apply (lru_evicts_first 2 0 c0 (blank "k1") [blank "k2"; blank "k3"]);
    [reflexivity|exact Hnd|reflexivity].
Defined.


Lemma d20_leaves_cache_witness :
  sock_recv (get 9 "/d20") = Received "GET" "/d20" "HTTP/1.1" ∧
  ∃ evs w',
    @handle_http_request demo_env (get 9 "/d20") world0 = (evs, Done tt w') ∧
    w_cache w' = w_cache world0 ∧
    Forall (λ e, is_cache_event e = false) evs ∧
    loads evs = [].
Proof.
  split; [reflexivity|].
  apply (@d20_leaves_cache demo_env (get 9 "/d20") world0 "HTTP/1.1").
  reflexivity.
Defined.

(** Two requests on different sockets, in worlds whose generators are in
    different states, at clock readings 0 and 1 of the same second. *)
Lemma d20_same_second_witness :
  let w1 := world0 in
  let w2 := {| w_cache := w_cache world0; w_rng := 77; w_ticks := 1 |} in
  sock_recv (get 9 "/d20") = Received "GET" "/d20" "HTTP/1.1" ∧
  sock_recv (get 12 "/d20") = Received "GET" "/d20" "HTTP/1.1" ∧
  @time demo_env (w_ticks w1) = @time demo_env (w_ticks w2) ∧
  sent (@handle_http_request demo_env (get 9 "/d20") w1).1 =
    sent (@handle_http_request demo_env (get 12 "/d20") w2).1 ∧
  sent (@handle_http_request demo_env (get 9 "/d20") w1).1 =
    [@d20_response (@d20_value demo_env (@time demo_env (w_ticks w1)))].
Proof.
  intros w1 w2.
  split; [reflexivity|]. split; [reflexivity|]. split; [reflexivity|].
  apply (@d20_same_second demo_env (get 9 "/d20") (get 12 "/d20") w1 w2
           "HTTP/1.1" "HTTP/1.1"); reflexivity.
Defined.

Lemma world0_reachable : @reachable demo_env world0.
Proof. exists 1, 3, []. eexists. reflexivity. Defined.

(** A request of a missing file where the 404 document is missing too. *)
Lemma missing_404_is_fatal_witness :
  @file_load bare_env "./serverfiles/404.html" = None ∧
  ∃ code evs,
    @resp_404 bare_env (get 8 "/nope") world0 = (evs, Exited code) ∧
    sent evs = [] ∧ code = 3 ∧ code ≠ 0 ∧
    (∀ rng0 listenfd conns evs' code',
       listenfd < 0 →
       @main bare_env rng0 listenfd conns = Some (evs', Exited code') →
       code ≠ code') ∧
    (∀ uri proto peer rest,
       sock_recv (get 8 "/nope") = Received "GET" uri proto → uri ≠ "/d20" →
       (cache_get (w_cache world0) (direct_path uri)).1 = None →
       @resolve bare_env uri = None →
       ∃ evs1,
         @main_loop bare_env (Accepted (get 8 "/nope") peer :: rest) world0 =
           (evs1, Exited code) ∧
         sent evs1 = [] ∧ EvClose (sock_fd (get 8 "/nope")) ∉ evs1).
Proof.
  split; [reflexivity|].
  exact (@missing_404_is_fatal bare_env (get 8 "/nope") world0 eq_refl).
Defined.



End Witnesses.

(** * Further properties of the handlers and of the loop *)

Section LoopProperties.
Import Cache Server Trace.
Context {E : Env}.

Implicit Types (w : world) (fd : socket) (f : File.file_data).

(** ** The loop, connection after connection *)

(** The events of a handler, by cases, for the observations of a trace. *)
Ltac handler_cases fd w :=
  unfold handle_http_request;
  destruct (sock_recv fd) as [|? uri ?]; [|
    case_decide; [case_decide; [rewrite get_d20_run|
      rewrite get_file_run, ?resp_404_run;
      unfold resolve, load_events;
      destruct (index (w_cache w) !! direct_path uri);
        [|destruct (file_load (direct_path uri));
          [|destruct (file_load (index_path uri));
            [|destruct (file_load not_found_path)]]]]|]];
  unfold send_events; destruct (sock_send_ok fd).

Lemma handle_http_request_closes fd w :
  closes (handle_http_request fd w).1 = [].
Proof. handler_cases fd w; done. Qed.

Lemma handle_http_request_sends_to fd w :
  sends_to (handle_http_request fd w).1 = [] ∨
  sends_to (handle_http_request fd w).1 = [sock_fd fd].
Proof. handler_cases fd w; (by left) || (by right). Qed.

Lemma closes_app t1 t2 : closes (t1 ++ t2) = closes t1 ++ closes t2.
Proof. unfold closes. apply omap_app. Qed.

Lemma sends_to_app t1 t2 : sends_to (t1 ++ t2) = sends_to t1 ++ sends_to t2.
Proof. unfold sends_to. apply omap_app. Qed.

Lemma serve_closes a w :
  closes (serve a w).1 =
    if (serve a w).2 is Done _ _ then accepted_fds [a] else [].
Proof.
  destruct a as [|fd peer]; [done|]. rewrite serve_run.
  pose proof (handle_http_request_closes fd w) as Hc.
  destruct (handle_http_request fd w) as [t [[] w'|code]]; cbn [fst snd] in *.
  - change (EvStdout ?m :: ?a ++ ?b) with ([EvStdout m] ++ a ++ b).
    by rewrite !closes_app, Hc.
  - change (EvStdout ?m :: ?a) with ([EvStdout m] ++ a).
    by rewrite closes_app, Hc.
Qed.

(** X6: when the loop returns, it has closed every connection it
    accepted, once each and in the order of acceptance; when it ends the
    process, it has closed those accepted before the connection on which
    it ended, and not that one. *)
Theorem connections_closed_in_order conns w :
  match (main_loop conns w).2 with
  | Done _ _ => closes (main_loop conns w).1 = accepted_fds conns
  | Exited _ =>
      ∃ before fd peer after,
        conns = before ++ Accepted fd peer :: after ∧
        closes (main_loop conns w).1 = accepted_fds before
  end.
Proof.
  revert w. induction conns as [|a conns IH]; intros w; [done|].
  cbn [main_loop]. unfold bind.
  pose proof (serve_closes a w) as Hc. revert Hc.
  destruct (serve a w) as [t1 [[] w1|code]] eqn:Hs; cbn [fst snd]; intros Hc.
  - specialize (IH w1).
    destruct (main_loop conns w1) as [t2 [[] w2|code]]; cbn [fst snd] in *.
    + rewrite closes_app, Hc, IH. unfold accepted_fds.
      by rewrite <- omap_app.
    + destruct IH as (before & fd & peer & after & -> & IH).
      exists (a :: before), fd, peer, after. split; [done|].
      rewrite closes_app, Hc, IH. unfold accepted_fds.
      by rewrite <- omap_app.
  - destruct a as [|fd peer]; [done|].
    exists [], fd, peer, conns. by rewrite Hc.
Qed.

(** X7: the loop sends responses only on connections it accepted, at most
    one on each and in the order of acceptance. *)
Theorem responses_on_accepted_connections conns w :
  sends_to (main_loop conns w).1 `sublist_of` accepted_fds conns.
Proof.
  revert w. induction conns as [|a conns IH]; intros w; [done|].
  cbn [main_loop]. unfold bind.
  assert (sends_to (serve a w).1 `sublist_of` accepted_fds [a]) as Ha.
  { destruct a as [|fd peer]; [done|]. rewrite serve_run.
    destruct (handle_http_request_sends_to fd w) as [Hs|Hs];
      destruct (handle_http_request fd w) as [t [[] w'|code]];
      cbn [fst snd] in *;
      change (EvStdout ?m :: ?a) with ([EvStdout m] ++ a);
      rewrite !sends_to_app, Hs; simpl;
      by (apply sublist_nil_l || apply sublist_skip; constructor || done). }
  destruct (serve a w) as [t1 [[] w1|code]]; cbn [fst snd] in *.
  - specialize (IH w1). destruct (main_loop conns w1) as [t2 r2].
    cbn [fst snd] in *. rewrite sends_to_app.
    change (a :: conns) with ([a] ++ conns).
    unfold accepted_fds at 1. rewrite omap_app. by apply sublist_app.
  - change (a :: conns) with ([a] ++ conns).
    unfold accepted_fds at 1. rewrite omap_app.
    by apply sublist_inserts_r.
Qed.

(** ** The cache in the hands of [get_file] *)




(** ** What a request does not depend on, and what it leaves alone *)

(** X9: a request other than GET /d20 leaves the state of the random
    generator as it was; GET /d20 leaves it where one draw after seeding
    with the clock puts it, whatever it was before.  No request reads the
    clock more than twice. *)
Theorem generator_frame fd w t w' :
  handle_http_request fd w = (t, Done tt w') →
  ((∃ proto, sock_recv fd = Received "GET" "/d20" proto) →
   w_rng w' = (rand (srand (time (w_ticks w) mod 2 ^ 32))).2) ∧
  ((∀ proto, sock_recv fd ≠ Received "GET" "/d20" proto) →
   w_rng w' = w_rng w) ∧
  (w_ticks w ≤ w_ticks w' ≤ w_ticks w + 2)%nat.
Proof.
  unfold handle_http_request.
  destruct (sock_recv fd) as [|m uri proto].
  { intros [= _ <-]. split; [by intros [? ?]|]. split; [done|lia]. }
  case_decide as Hm; [|intros [= _ <-]; split; [|split; [done|lia]]].
  2:{ intros [proto' [= -> _ _]]. done. }
  case_decide as Hu.
  - subst. rewrite get_d20_run. intros [= _ <-].
    split; [done|]. split; [|simpl; lia].
    intros Hno. by destruct (Hno proto).
  - rewrite get_file_run, resp_404_run.
    destruct (index (w_cache w) !! direct_path uri).
    { intros [= _ <-]. split; [|split; [done|simpl; lia]].
      intros [proto' [= _ -> _]]. done. }
    destruct (resolve uri) as [[fp f]|].
    { intros [= _ <-]. split; [|split; [done|simpl; lia]].
      intros [proto' [= _ -> _]]. done. }
    destruct (file_load not_found_path); [|done].
    intros [= _ <-]. split; [|split; [done|simpl; lia]].
    intros [proto' [= _ -> _]]. done.
Qed.

(** X10: [srand] takes an [unsigned int], so the number that GET /d20
    returns depends on the clock modulo 2^32 only: two requests whose
    clock readings differ by a multiple of 2^32 get equal responses. *)
Theorem d20_seed_wraps fd1 fd2 w1 w2 proto1 proto2 :
  sock_recv fd1 = Received "GET" "/d20" proto1 →
  sock_recv fd2 = Received "GET" "/d20" proto2 →
  time (w_ticks w1) mod 2 ^ 32 = time (w_ticks w2) mod 2 ^ 32 →
  sent (handle_http_request fd1 w1).1 = sent (handle_http_request fd2 w2).1.
Proof.
  intros Hr1 Hr2 Ht.
  rewrite (handle_http_request_d20 _ _ _ Hr1), (handle_http_request_d20 _ _ _ Hr2).
  rewrite !get_d20_run. cbn [fst]. rewrite !sent_send_events.
  unfold d20_value. by rewrite Ht.
Qed.

(** ** What holds of the cache throughout a run *)

(** A property of the cache that the creation establishes and that the
    gets and the puts of [get_file] keep holds in every world of [main]. *)
Lemma reachable_invariant (P : cache → Prop) :
  P {| max_size := 10; index := ∅; recency := [] |} →
  (∀ c k, P c → P (cache_get c k).2) →
  (∀ c p fp f, P c → resolve p = Some (fp, f) →
     P (cache_put c fp (mime_type_get fp) (File.data f) (File.size f))) →
  ∀ w, reachable w → P (w_cache w).
Proof.
  intros Hinit Hget Hput.
  assert (∀ fd w t w', P (w_cache w) →
            handle_http_request fd w = (t, Done tt w') → P (w_cache w'))
    as Hhandle.
  { intros fd w t w' HP. unfold handle_http_request.
    destruct (sock_recv fd) as [|m uri proto]; [by intros [= _ <-]|].
    case_decide; [|by intros [= _ <-]].
    case_decide; [rewrite get_d20_run; by intros [= _ <-]|].
    rewrite get_file_run, resp_404_run.
    destruct (index (w_cache w) !! direct_path uri).
    { intros [= _ <-]. by apply Hget. }
    destruct (resolve uri) as [[fp f]|] eqn:Hres.
    { intros [= _ <-]. by eapply Hput. }
    destruct (file_load not_found_path); [|done]. by intros [= _ <-]. }
  assert (∀ conns w t w', P (w_cache w) →
            main_loop conns w = (t, Done tt w') → P (w_cache w')) as Hloop.
  { induction conns as [|a conns IH]; intros w t w' HP; simpl.
    - by intros [= _ <-].
    - unfold bind.
      destruct (serve a w) as [t1 [[] w1|code]] eqn:Hs; [|done].
      destruct (main_loop conns w1) as [t2 r2] eqn:Hm.
      intros [= _ ->]. eapply IH; [|done].
      destruct a as [|fd peer]; [by injection Hs as _ <-|].
      rewrite serve_run in Hs.
      destruct (handle_http_request fd w) as [t' [[] w2|code]] eqn:Hh; [|done].
      injection Hs as _ <-. by eapply Hhandle. }
  intros w (rng0 & listenfd & conns & evs & Hmain).
  unfold main in Hmain. simpl in Hmain.
  case_decide; [done|]. injection Hmain as Hmain.
  unfold bind at 1 in Hmain. unfold emit at 1 in Hmain.
  destruct (main_loop conns _) as [t r] eqn:Hm.
  injection Hmain as _ ->. eapply Hloop; [|exact Hm]. exact Hinit.
Qed.

Lemma resolve_rooted p fp f : resolve p = Some (fp, f) → rooted fp.
Proof.
  unfold resolve.
  destruct (file_load (direct_path p)); [intros [= <- _]; by exists p|].
  destruct (file_load (index_path p)); [|done].
  intros [= <- _]. by exists ("/" +:+ p +:+ "/index.html").
Qed.

(** X11: at any time of a run, every key of the cache is a string that
    begins with [./serverroot] and whose file loads, and the entry under a
    key has that key as its path; so the path that [resp_404] loads,
    [./serverfiles/404.html], is never a key.  Keys are strings: this
    does not keep the bytes of the 404 document out of the cache, which
    a URI through [..] puts there under a key that begins with
    [./serverroot]. *)
Theorem cache_keys_are_served_files w k e :
  reachable w →
  (cache_get (w_cache w) k).1 = Some e →
  rooted k ∧ is_Some (file_load k) ∧ path e = k ∧
  k ≠ "./serverfiles/404.html".
Proof.
  intros Hreach Hk. rewrite cache_get_result in Hk.
  assert (rooted k) as Hroot.
  { revert k e Hk.
    refine (reachable_invariant
              (λ c, ∀ k e, index c !! k = Some e → rooted k) _ _ _ w Hreach).
    - intros k e. simpl. by rewrite lookup_empty.
    - intros c k0 Hc k e. rewrite cache_get_index. apply Hc.
    - intros c p fp f Hc Hres k e [[-> _]|Hk]%cache_put_lookup.
      + by eapply resolve_rooted.
      + by eapply Hc. }
  destruct (reachable_coherent w Hreach k e Hk) as (f & Hf & ->).
  split; [done|]. split; [by rewrite Hf|]. split; [done|].
  intros ->. destruct Hroot as [rest Hrest]. discriminate Hrest.
Qed.

(** X12: at any time of a run, the cache of the server (modelled from the
    spec) is well formed and holds at most 10 entries, whatever the
    requests were. *)
Theorem server_cache_within_capacity w :
  reachable w →
  wf (w_cache w) ∧ max_size (w_cache w) = 10 ∧
  (size (index (w_cache w)) ≤ 10)%nat.
Proof.
  intros Hreach.
  assert (wf (w_cache w) ∧ max_size (w_cache w) = 10) as [Hwf Hmax].
  { refine (reachable_invariant (λ c, wf c ∧ max_size c = 10) _ _ _ w Hreach).
    - split; [|done]. by apply (wf_create 10 0).
    - intros c k [Hwf Hmax]. split; [by apply wf_get|].
      by rewrite cache_get_max_size.
    - intros c p fp f [Hwf Hmax] _. split; [by apply wf_put|].
      by rewrite cache_put_max_size. }
  split; [done|]. split; [done|].
  destruct Hwf as [_ Hb _ _]. lia.
Qed.

(** ** The key of the fallback *)



(** ** The length that a response announces *)

(** X14: at any time of a run, the content length of every response that
    is sent is the number of bytes of its body, be it a number, a file
    that was loaded, a cached file or the 404 document. *)
Theorem content_length_is_accurate `{!FileLaw E} (a : accept_result) w r :
  reachable w →
  r ∈ sent (serve a w).1 →
  resp_content_length r = Z.of_nat (length (body r)).
Proof.
  intros Hreach. apply reachable_coherent in Hreach.
  assert (∀ p f (h ct : string), file_load p = Some f →
            File.size f =
            Z.of_nat (length (take (Z.to_nat (File.size f)) (File.data f))))
    as Hfile.
  { intros p f _ _ Hf. rewrite (take_file _ _ Hf). by eapply file_load_size. }
  assert (∀ fd, r ∈ sent (handle_http_request fd w).1 →
            resp_content_length r = Z.of_nat (length (body r))) as Hhandle.
  { intros fd. unfold handle_http_request.
    destruct (sock_recv fd) as [|m uri proto]; [by intros ?%elem_of_nil|].
    case_decide; [|by intros ?%elem_of_nil].
    case_decide.
    - rewrite get_d20_run. cbn [fst]. rewrite sent_send_events.
      intros ->%list_elem_of_singleton. simpl. by rewrite bytes_of_length.
    - rewrite get_file_run, resp_404_run.
      destruct (index (w_cache w) !! direct_path uri) as [e|] eqn:Hk.
      { destruct (Hreach _ _ Hk) as (f & Hf & ->). cbn [fst].
        rewrite sent_cons, sent_send_events.
        intros ->%list_elem_of_singleton. simpl. by eapply Hfile. }
      destruct (resolve uri) as [[fp f]|] eqn:Hres; cbn [fst].
      { rewrite sent_cons, sent_app, sent_load_events, sent_cons,
          sent_send_events.
        intros ->%list_elem_of_singleton. simpl.
        eapply Hfile; [done..|]. by eapply resolve_Some. }
      destruct (file_load not_found_path) as [f|] eqn:H4; cbn [fst].
      + rewrite sent_cons, sent_app, sent_load_events, sent_cons,
          sent_send_events.
        intros ->%list_elem_of_singleton. simpl. by eapply Hfile.
      + rewrite sent_cons, sent_app, sent_load_events.
        by intros ?%elem_of_nil. }
  destruct a as [|fd peer]; [by intros ?%elem_of_nil|].
  rewrite serve_run. specialize (Hhandle fd).
  destruct (handle_http_request fd w) as [t [[] w'|code]]; cbn [fst] in *.
  - rewrite sent_cons, sent_app. simpl. by rewrite app_nil_r.
  - by rewrite sent_cons.
Qed.

End LoopProperties.

(** * The further properties at concrete inputs *)

Section LoopWitnesses.
Import Cache Server Demo Trace.




Lemma generator_frame_witness :
  ∃ t w',
    @handle_http_request demo_env (get 9 "/d20") world0 = (t, Done tt w') ∧
    ((∃ proto, sock_recv (get 9 "/d20") = Received "GET" "/d20" proto) →
     w_rng w' =
       (@rand demo_env
          (@srand demo_env (@time demo_env (w_ticks world0) mod 2 ^ 32))).2) ∧
    ((∀ proto, sock_recv (get 9 "/d20") ≠ Received "GET" "/d20" proto) →
     w_rng w' = w_rng world0) ∧
    (w_ticks world0 ≤ w_ticks w' ≤ w_ticks world0 + 2)%nat.
Proof.
  eexists _, _. split; [vm_compute; reflexivity|].
  refine (@generator_frame demo_env (get 9 "/d20") world0 _ _ _).
  vm_compute. reflexivity.
Defined.

(** Two requests whose clock readings are 2^32 seconds apart. *)
Lemma d20_seed_wraps_witness :
  let w1 := world0 in
  let w2 := {| w_cache := w_cache world0; w_rng := 77; w_ticks := 1 |} in
  sock_recv (get 9 "/d20") = Received "GET" "/d20" "HTTP/1.1" ∧
  sock_recv (get 12 "/d20") = Received "GET" "/d20" "HTTP/1.1" ∧
  @time wrap_env (w_ticks w1) ≠ @time wrap_env (w_ticks w2) ∧
  @time wrap_env (w_ticks w1) mod 2 ^ 32 =
    @time wrap_env (w_ticks w2) mod 2 ^ 32 ∧
  sent (@handle_http_request wrap_env (get 9 "/d20") w1).1 =
    sent (@handle_http_request wrap_env (get 12 "/d20") w2).1.
Proof.
  intros w1 w2.
  split; [reflexivity|]. split; [reflexivity|]. split; [discriminate|].
  split; [reflexivity|].
  exact (@d20_seed_wraps wrap_env (get 9 "/d20") (get 12 "/d20") w1 w2
           "HTTP/1.1" "HTTP/1.1" eq_refl eq_refl eq_refl).
Defined.

Lemma world_cached_reachable :
  ∃ w, @reachable demo_env w ∧ w_cache w = w_cache world_cached.
Proof.
  eexists. split.
  - exists 1, 3, [Accepted (get 4 "/index.html") "a"]. eexists.
    vm_compute. reflexivity.
  - vm_compute. reflexivity.
Defined.

Lemma cache_keys_are_served_files_witness :
  ∃ w,
    @reachable demo_env w ∧
    (cache_get (w_cache w) "./serverroot/index.html").1 = Some index_entry ∧
    rooted "./serverroot/index.html" ∧
    is_Some (@file_load demo_env "./serverroot/index.html") ∧
    path index_entry = "./serverroot/index.html" ∧
    "./serverroot/index.html" ≠ "./serverfiles/404.html".
Proof.
  destruct world_cached_reachable as (w & Hreach & Hcache).
  assert ((cache_get (w_cache w) "./serverroot/index.html").1 = Some index_entry)
    as Hk.
  { rewrite Hcache. vm_compute. reflexivity. }
  exists w. split; [exact Hreach|]. split; [exact Hk|].
  exact (@cache_keys_are_served_files demo_env w "./serverroot/index.html"
           index_entry Hreach Hk).
Defined.

Lemma server_cache_within_capacity_witness :
  ∃ w,
    @reachable demo_env w ∧
    wf (w_cache w) ∧ max_size (w_cache w) = 10 ∧
    (size (index (w_cache w)) ≤ 10)%nat.
Proof.
  destruct world_cached_reachable as (w & Hreach & _).
  exists w. split; [exact Hreach|].
  exact (@server_cache_within_capacity demo_env w Hreach).
Defined.


Lemma content_length_is_accurate_witness :
  let r := @file_response demo_env "HTTP/1.1 200 OK" "./serverroot/index.html"
             index_html in
  @reachable demo_env world0 ∧
  r ∈ sent (@serve demo_env (Accepted (get 4 "/index.html") "a") world0).1 ∧
  resp_content_length r = Z.of_nat (length (body r)).
Proof.
  intros r.
  assert (r ∈ sent (@serve demo_env (Accepted (get 4 "/index.html") "a")
                      world0).1) as Hin.
  { vm_compute. left. }
  split; [exact world0_reachable|]. split; [exact Hin|].
  exact (@content_length_is_accurate demo_env demo_file_law
           (Accepted (get 4 "/index.html") "a") world0 r world0_reachable Hin).
Defined.

End LoopWitnesses.

(** * Properties of the server with the buffers of the source *)

Section BoundedProperties.
Import Cache Server Trace Bounded.
Context {E : Env}.

Implicit Types (w : world) (fd : peer) (f : File.file_data).

(** ** What each handler does, step by step *)

Lemma b_send_response_run fd h ct b len w :
  (send_response fd h ct b len;;; ret tt) w =
    sending fd (asctime (time (w_ticks w)))
      {| header := h; resp_content_type := ct; resp_content_length := len;
         body := take (Z.to_nat len) b |}
      (length b) (tick w).
Proof.
  unfold send_response, sending, bind, lift, guard, call_time, emit, ret,
    overrun, killed. simpl.
  destruct (copy_fits _ _ _); [|done]. simpl.
  destruct (sock_send_ok (p_sock fd)); [done|]. simpl.
  by destruct (p_sigpipe fd).
Qed.

Lemma b_send_response_raw fd h ct b len w :
  send_response fd h ct b len w =
    let x := sending fd (asctime (time (w_ticks w)))
               {| header := h; resp_content_type := ct;
                  resp_content_length := len;
                  body := take (Z.to_nat len) b |}
               (length b) (tick w) in
    (x.1,
     match x.2 with
     | Returned _ w' =>
         Returned (if sock_send_ok (p_sock fd)
                   then Z.of_nat (length (response_bytes
                          (asctime (time (w_ticks w)))
                          {| header := h; resp_content_type := ct;
                             resp_content_length := len;
                             body := take (Z.to_nat len) b |}))
                   else -1) w'
     | Exit code => Exit code
     | Overrun => Overrun
     | Killed => Killed
     end).
Proof.
  unfold send_response, sending, bind, lift, guard, call_time, emit, ret,
    overrun, killed. simpl.
  destruct (copy_fits _ _ _); [|done]. simpl.
  destruct (sock_send_ok (p_sock fd)); [done|]. simpl.
  by destruct (p_sigpipe fd).
Qed.

Lemma b_get_d20_run fd w :
  get_d20 fd w =
    if fits (sprintf_d (d20_value (time (w_ticks w)))) d20_body_size
    then sending fd (asctime (time (S (w_ticks w))))
           (d20_response (d20_value (time (w_ticks w))))
           (length (bytes_of (sprintf_d (d20_value (time (w_ticks w))))))
           (tick (set_rng (rand (srand (time (w_ticks w) mod 2 ^ 32))).2
                          (tick w)))
    else ([], Overrun).
Proof.
  unfold get_d20. unfold bind at 1. unfold lift at 1, call_time at 1.
  unfold bind at 1. unfold lift at 1, call_srand at 1.
  unfold bind at 1. unfold lift at 1, call_rand at 1.
  fold (d20_value (time (w_ticks w))).
  unfold bind at 1. unfold guard.
  destruct (fits _ _); [|done]. unfold ret at 1.
  rewrite b_send_response_run.
  unfold d20_response. rewrite take_strlen.
  by destruct (sending _ _ _ _ _).
Qed.

Lemma b_resp_404_run fd w :
  resp_404 fd w =
    match file_load "./serverfiles/404.html" with
    | Some f =>
        after [EvFileLoad "./serverfiles/404.html" true]
          (sending fd (asctime (time (w_ticks w)))
             {| header := "HTTP/1.1 404 NOT FOUND";
                resp_content_type := mime_type_get "./serverfiles/404.html";
                resp_content_length := File.size f;
                body := take (Z.to_nat (File.size f)) (File.data f) |}
             (length (File.data f)) (tick w))
    | None =>
        ([EvFileLoad "./serverfiles/404.html" false;
          EvStderr "cannot find system 404 file
"], Exit 3)
    end.
Proof.
  unfold resp_404. change (SERVER_FILES +:+ "/404.html") with "./serverfiles/404.html".
  unfold bind at 1. unfold lift at 1, call_file_load, Server.bind, emit,
    Server.ret.
  destruct (file_load "./serverfiles/404.html") as [f|].
  - rewrite b_send_response_run. unfold after.
    by destruct (sending _ _ _ _ _).
  - reflexivity.
Qed.

Lemma b_get_file_run fd p w :
  get_file fd p w =
    if fits (direct_path p) filepath_size then
      match index (w_cache w) !! direct_path p with
      | Some e =>
          after [EvCacheGet (direct_path p) true]
            (sending fd (asctime (time (w_ticks w)))
               {| header := "HTTP/1.1 200 OK";
                  resp_content_type := content_type e;
                  resp_content_length := content_length e;
                  body := take (Z.to_nat (content_length e)) (content e) |}
               (length (content e))
               (tick (set_cache (cache_get (w_cache w) (direct_path p)).2 w)))
      | None =>
          match file_load (direct_path p) with
          | Some f =>
              after [EvCacheGet (direct_path p) false;
                     EvFileLoad (direct_path p) true;
                     EvCachePut (direct_path p) (mime_type_get (direct_path p))
                                (File.data f) (File.size f)]
                (sending fd (asctime (time (w_ticks w)))
                   {| header := "HTTP/1.1 200 OK";
                      resp_content_type := mime_type_get (direct_path p);
                      resp_content_length := File.size f;
                      body := take (Z.to_nat (File.size f)) (File.data f) |}
                   (length (File.data f))
                   (tick (set_cache
                            (cache_put (w_cache w) (direct_path p)
                               (mime_type_get (direct_path p))
                               (File.data f) (File.size f)) w)))
          | None =>
              if fits (index_path p) filepath_size then
                match file_load (index_path p) with
                | Some f =>
                    after [EvCacheGet (direct_path p) false;
                           EvFileLoad (direct_path p) false;
                           EvFileLoad (index_path p) true;
                           EvCachePut (index_path p)
                                      (mime_type_get (index_path p))
                                      (File.data f) (File.size f)]
                      (sending fd (asctime (time (w_ticks w)))
                         {| header := "HTTP/1.1 200 OK";
                            resp_content_type := mime_type_get (index_path p);
                            resp_content_length := File.size f;
                            body := take (Z.to_nat (File.size f))
                                         (File.data f) |}
                         (length (File.data f))
                         (tick (set_cache
                                  (cache_put (w_cache w) (index_path p)
                                     (mime_type_get (index_path p))
                                     (File.data f) (File.size f)) w)))
                | None =>
                    after [EvCacheGet (direct_path p) false;
                           EvFileLoad (direct_path p) false;
                           EvFileLoad (index_path p) false]
                      (resp_404 fd w)
                end
              else ([EvCacheGet (direct_path p) false;
                     EvFileLoad (direct_path p) false], Overrun)
          end
      end
    else ([], Overrun).
Proof.
  unfold get_file. fold (direct_path p). fold (index_path p).
  unfold bind, guard, lift, ret, overrun, call_cache_get, call_file_load,
    call_cache_put, Server.bind, Server.ret, emit.
  destruct (fits (direct_path p) filepath_size); [|reflexivity].
  lazy beta iota zeta. rewrite cache_get_result.
  destruct (index (w_cache w) !! direct_path p) as [e|] eqn:Hk;
    lazy beta iota zeta.
  { rewrite b_send_response_raw. unfold after.
    destruct (sending _ _ _ _ _) as [t [[] w'| | |]];
      cbn [fst snd]; by rewrite ?app_nil_r, <- ?app_assoc. }
  assert ((cache_get (w_cache w) (direct_path p)).2 = w_cache w) as ->.
  { unfold cache_get. by rewrite Hk. }
  rewrite set_cache_id.
  destruct (file_load (direct_path p)) as [f|] eqn:Hd; lazy beta iota zeta.
  { rewrite b_send_response_raw. unfold after.
    destruct (sending _ _ _ _ _) as [t [[] w'| | |]];
      cbn [fst snd]; by rewrite ?app_nil_r, <- ?app_assoc. }
  destruct (fits (index_path p) filepath_size); [|reflexivity].
  lazy beta iota zeta.
  destruct (file_load (index_path p)) as [f|] eqn:Hi; lazy beta iota zeta.
  - rewrite b_send_response_raw. unfold after.
    destruct (sending _ _ _ _ _) as [t [[] w'| | |]];
      cbn [fst snd]; by rewrite ?app_nil_r, <- ?app_assoc.
  - unfold after. destruct (resp_404 fd w) as [t [[] w'| | |]];
      cbn [fst snd]; by rewrite ?app_nil_r, <- ?app_assoc.
Qed.

Lemma b_handle_http_request_run fd w :
  handle_http_request fd w =
    match sock_recv (p_sock fd) with
    | RecvError => ([EvStderr "recv"], Returned tt w)
    | Received m uri proto =>
        if fits m req_method_size && fits uri req_uri_size &&
           fits proto req_protocol_size
        then if decide (m = "GET")
             then if decide (uri = "/d20") then get_d20 fd w
                  else get_file fd uri w
             else ([], Returned tt w)
        else ([], Overrun)
    end.
Proof.
  unfold handle_http_request.
  destruct (sock_recv (p_sock fd)) as [|m uri proto]; [done|].
  unfold bind, guard.
  destruct (fits m _ && fits uri _ && fits proto _); [|done].
  unfold ret at 1. repeat case_decide; try done.
  - by destruct (get_d20 fd w).
  - by destruct (get_file fd uri w).
Qed.

(** ** When the writes fit *)

Lemma strlen_append (s1 s2 : string) : strlen (s1 +:+ s2) = strlen s1 + strlen s2.
Proof. unfold strlen. rewrite length_append. lia. Qed.

Lemma fits_true (s : string) (size : Z) : strlen s < size → fits s size = true.
Proof. intros Hs. unfold fits. by apply bool_decide_eq_true. Qed.

Lemma fits_false (s : string) (size : Z) : size ≤ strlen s → fits s size = false.
Proof. intros Hs. unfold fits. apply bool_decide_eq_false. lia. Qed.

(** A URI that fits [req_uri] gives file paths that fit [filepath]. *)
Lemma paths_fit uri :
  strlen uri < req_uri_size →
  fits (direct_path uri) filepath_size = true ∧
  fits (index_path uri) filepath_size = true.
Proof.
  unfold req_uri_size, filepath_size. intros Hu.
  split; apply fits_true; unfold direct_path, index_path;
    rewrite !strlen_append.
  - change (strlen "./serverroot") with 12. lia.
  - change (strlen "./serverroot/") with 13.
    change (strlen "/index.html") with 11. lia.
Qed.

Lemma tokens_fit uri proto :
  strlen uri < req_uri_size → strlen proto < req_protocol_size →
  fits "GET" req_method_size && fits uri req_uri_size &&
    fits proto req_protocol_size = true.
Proof.
  intros Hu Hp. rewrite (fits_true uri), (fits_true proto) by done. done.
Qed.

(** The response of a file that was loaded is copied whole when it fits. *)
Lemma file_copy_fits `{!FileLaw E} date h p f :
  file_load p = Some f →
  response_fits date (file_response h p f) →
  copy_fits date
    {| header := h; resp_content_type := mime_type_get p;
       resp_content_length := File.size f;
       body := take (Z.to_nat (File.size f)) (File.data f) |}
    (length (File.data f)) = true.
Proof.
  intros Hf [H1 H2]. rewrite (take_file _ _ Hf).
  change {| header := h; resp_content_type := mime_type_get p;
            resp_content_length := File.size f; body := File.data f |}
    with (file_response h p f).
  unfold copy_fits. apply bool_decide_eq_true.
  pose proof (file_load_size _ _ Hf) as Hsz.
  change (resp_content_length (file_response h p f)) with (File.size f) in *.
  lia.
Qed.

(** What a [send_response] whose response fits leaves in the trace and
    how it ends. *)
Lemma sending_fits fd date r n w :
  copy_fits date r n = true →
  ∃ post,
    (sending fd date r n w).1 = EvSend (sock_fd (p_sock fd)) date r :: post ∧
    sent post = [] ∧ loads post = [] ∧
    Forall (λ e, ∀ k c d l, e ≠ EvCachePut k c d l) post ∧
    ended fd (sending fd date r n w).2 ∧
    (∀ w', (sending fd date r n w).2 = Returned tt w' → w' = w).
Proof.
  intros Hfit. unfold sending. rewrite Hfit.
  destruct (sock_send_ok (p_sock fd)) eqn:Hok; [|destruct (p_sigpipe fd) eqn:Hs];
    cbn [fst snd ended]; eexists; (split; [done|]); rewrite ?Hok, ?Hs;
    repeat split; try done; try (by left); try (by right);
    try (by repeat constructor); by intros w' [= <-].
Qed.

Lemma sending_overrun fd date r n w :
  copy_fits date r n = false → sending fd date r n w = ([], Overrun).
Proof. intros Hfit. unfold sending. by rewrite Hfit. Qed.

Ltac traces Hev Hs Hl :=
  cbn [fst snd];
  rewrite ?sent_app, ?loads_app, Hev, !sent_cons, !loads_cons, Hs, Hl;
  change (sent []) with (@nil response);
  change (loads []) with (@nil (string * bool));
  cbn [app].

(** ** Static files, their sizes and the age of the cache *)

(** C5: a GET request of a URI other than /d20 whose tokens fit the arrays
    of [handle_http_request], whose due response fits the array of
    [send_response], and for whose path the cache holds, if anything, the
    file as it is, is answered with the file at [./serverroot<uri>]
    (status 200); when that file cannot be loaded, with the file at
    [./serverroot/<uri>/index.html] (status 200), loaded after the first
    load failed; when neither can be loaded, with the document loaded
    from [./serverfiles/404.html] and status 404, or with exit code 3
    when that cannot be loaded either.  The response is the one handed
    to [send]; the handler then returns, unless the send fails on a
    connection where that raises SIGPIPE, which ends the process. *)
Theorem static_file_resolution_within_bounds `{!FileLaw E} fd w uri proto :
  sock_recv (p_sock fd) = Received "GET" uri proto → uri ≠ "/d20" →
  strlen uri < req_uri_size → strlen proto < req_protocol_size →
  fresh_at (w_cache w) uri →
  (∀ r, due_response uri = Some r →
        response_fits (asctime (time (w_ticks w))) r) →
  ∃ evs res, handle_http_request fd w = (evs, res) ∧
    match file_load (direct_path uri) with
    | Some f =>
        sent evs = [file_response "HTTP/1.1 200 OK" (direct_path uri) f] ∧
        (loads evs = [] ∨ loads evs = [(direct_path uri, true)]) ∧
        ended fd res
    | None =>
        match file_load (index_path uri) with
        | Some f =>
            sent evs = [file_response "HTTP/1.1 200 OK" (index_path uri) f] ∧
            loads evs = [(direct_path uri, false); (index_path uri, true)] ∧
            ended fd res
        | None =>
            match file_load "./serverfiles/404.html" with
            | Some f =>
                sent evs = [file_response "HTTP/1.1 404 NOT FOUND"
                                          "./serverfiles/404.html" f] ∧
                loads evs = [(direct_path uri, false); (index_path uri, false);
                             ("./serverfiles/404.html", true)] ∧
                ended fd res
            | None => sent evs = [] ∧ res = Exit 3
            end
        end
    end.
Proof.
  intros Hr Hne Hu Hp Hfresh Hfit.
  destruct (paths_fit uri Hu) as [Hfd Hfi].
  rewrite b_handle_http_request_run, Hr, (tokens_fit _ _ Hu Hp).
  rewrite decide_True by done. rewrite decide_False by done.
  rewrite b_get_file_run, Hfd, Hfi, b_resp_404_run.
  unfold fresh_at in Hfresh. setoid_rewrite cache_get_result in Hfresh.
  unfold due_response in Hfit.
  destruct (index (w_cache w) !! direct_path uri) as [e|] eqn:Hk.
  { destruct (Hfresh e eq_refl) as (f & Hf & ->). rewrite Hf in Hfit |- *.
    cbn [content_type content content_length].
    destruct (sending_fits fd (asctime (time (w_ticks w))) _ _
                (tick (set_cache (cache_get (w_cache w) (direct_path uri)).2 w))
                (file_copy_fits _ _ _ _ Hf (Hfit _ eq_refl)))
      as (post & Hev & Hs & Hl & _ & Hend & _).
    unfold after. eexists _, _. split; [reflexivity|].
    traces Hev Hs Hl.
    split; [by rewrite (take_file _ _ Hf)|]. split; [by left|exact Hend]. }
  destruct (file_load (direct_path uri)) as [f|] eqn:Hd.
  { destruct (sending_fits fd (asctime (time (w_ticks w))) _ _
                (tick (set_cache
                   (cache_put (w_cache w) (direct_path uri)
                      (mime_type_get (direct_path uri))
                      (File.data f) (File.size f)) w))
                (file_copy_fits _ _ _ _ Hd (Hfit _ eq_refl)))
      as (post & Hev & Hs & Hl & _ & Hend & _).
    unfold after. eexists _, _. split; [reflexivity|].
    traces Hev Hs Hl.
    split; [by rewrite (take_file _ _ Hd)|]. split; [by right|exact Hend]. }
  destruct (file_load (index_path uri)) as [f|] eqn:Hi.
  { destruct (sending_fits fd (asctime (time (w_ticks w))) _ _
                (tick (set_cache
                   (cache_put (w_cache w) (index_path uri)
                      (mime_type_get (index_path uri))
                      (File.data f) (File.size f)) w))
                (file_copy_fits _ _ _ _ Hi (Hfit _ eq_refl)))
      as (post & Hev & Hs & Hl & _ & Hend & _).
    unfold after. eexists _, _. split; [reflexivity|].
    traces Hev Hs Hl.
    split; [by rewrite (take_file _ _ Hi)|]. split; [done|exact Hend]. }
  destruct (file_load "./serverfiles/404.html") as [f|] eqn:H4.
  - destruct (sending_fits fd (asctime (time (w_ticks w))) _ _ (tick w)
                (file_copy_fits _ _ _ _ H4 (Hfit _ eq_refl)))
      as (post & Hev & Hs & Hl & _ & Hend & _).
    unfold after. eexists _, _. split; [reflexivity|].
    traces Hev Hs Hl.
    split; [by rewrite (take_file _ _ H4)|]. split; [done|exact Hend].
  - unfold after. eexists _, _. split; [reflexivity|].
    cbn [fst snd]. by rewrite !sent_app, !sent_cons.
Qed.

(** C6: a static-file request whose tokens fit the arrays of
    [handle_http_request], that misses the cache, whose file load
    succeeds and whose response fits the array of [send_response], puts
    the file in the cache under the path that was loaded, then sends the
    response, whose body and length are the file's bytes and size;
    nothing is sent before the put, and the handler returns with the
    file cached unless the peer is gone and the signal ends the
    process. *)
Theorem miss_puts_before_send_within_bounds `{!FileLaw E} fd w uri proto fp f :
  sock_recv (p_sock fd) = Received "GET" uri proto → uri ≠ "/d20" →
  strlen uri < req_uri_size → strlen proto < req_protocol_size →
  (cache_get (w_cache w) (direct_path uri)).1 = None →
  resolve uri = Some (fp, f) →
  response_fits (asctime (time (w_ticks w)))
                (file_response "HTTP/1.1 200 OK" fp f) →
  ∃ pre post res,
    handle_http_request fd w =
      (pre ++ EvCachePut fp (mime_type_get fp) (File.data f) (File.size f) ::
              EvSend (sock_fd (p_sock fd)) (asctime (time (w_ticks w)))
                     (file_response "HTTP/1.1 200 OK" fp f) ::
              post, res) ∧
    sent pre = [] ∧ sent post = [] ∧
    Forall (λ e, ∀ k c d l, e ≠ EvCachePut k c d l) (pre ++ post) ∧
    body (file_response "HTTP/1.1 200 OK" fp f) = File.data f ∧
    resp_content_length (file_response "HTTP/1.1 200 OK" fp f) = File.size f ∧
    ended fd res ∧
    (∀ w', res = Returned tt w' →
       w_cache w' = cache_put (w_cache w) fp (mime_type_get fp)
                              (File.data f) (File.size f)).
Proof.
  intros Hr Hne Hu Hp Hk Hres Hfit. rewrite cache_get_result in Hk.
  destruct (paths_fit uri Hu) as [Hfd Hfi].
  rewrite b_handle_http_request_run, Hr, (tokens_fit _ _ Hu Hp).
  rewrite decide_True by done. rewrite decide_False by done.
  rewrite b_get_file_run, Hfd, Hfi, Hk.
  pose proof (resolve_Some _ _ _ Hres) as Hf.
  destruct (sending_fits fd (asctime (time (w_ticks w))) _ _
              (tick (set_cache
                 (cache_put (w_cache w) fp (mime_type_get fp)
                    (File.data f) (File.size f)) w))
              (file_copy_fits _ _ _ _ Hf Hfit))
    as (post & Hev & Hs & _ & Hput & Hend & Hw).
  rewrite (take_file _ _ Hf) in Hev, Hend, Hw.
  unfold resolve in Hres.
  destruct (file_load (direct_path uri)) as [f1|] eqn:Hd.
  - injection Hres as <- <-. rewrite (take_file _ _ Hd).
    exists [EvCacheGet (direct_path uri) false;
            EvFileLoad (direct_path uri) true], post.
    eexists. split.
    { unfold after. rewrite Hev. reflexivity. }
    split; [by rewrite !sent_cons|].
    split; [exact Hs|].
    split; [repeat (apply Forall_cons; split; [intros ???? [=]|]); exact Hput|].
    split; [reflexivity|].
    split; [reflexivity|].
    split; [exact Hend|].
    intros w' Hw'. apply Hw in Hw'. subst w'.
    cbn [w_cache tick set_cache]. reflexivity.
  - destruct (file_load (index_path uri)) as [f1|] eqn:Hi; [|discriminate Hres].
    injection Hres as <- <-. rewrite (take_file _ _ Hi).
    exists [EvCacheGet (direct_path uri) false;
            EvFileLoad (direct_path uri) false;
            EvFileLoad (index_path uri) true], post.
    eexists. split.
    { unfold after. rewrite Hev. reflexivity. }
    split; [by rewrite !sent_cons|].
    split; [exact Hs|].
    split; [repeat (apply Forall_cons; split; [intros ???? [=]|]); exact Hput|].
    split; [reflexivity|].
    split; [reflexivity|].
    split; [exact Hend|].
    intros w' Hw'. apply Hw in Hw'. subst w'.
    cbn [w_cache tick set_cache]. reflexivity.
Qed.

(** ** When a write does not fit *)

Lemma strlen_nonneg (s : string) : 0 ≤ strlen s.
Proof. unfold strlen. lia. Qed.

Lemma copy_overrun date r n :
  max_response_size < resp_content_length r → copy_fits date r n = false.
Proof.
  intros Hbig. unfold copy_fits. apply bool_decide_eq_false.
  intros (_ & _ & Hsum & _).
  pose proof (strlen_nonneg (response_head date r)). lia.
Qed.

(** A request line whose URI does not fit [req_uri] overruns it in
    [sscanf], before anything else is done. *)
Lemma long_uri_overruns fd w m uri proto :
  sock_recv (p_sock fd) = Received m uri proto →
  req_uri_size ≤ strlen uri →
  handle_http_request fd w = ([], Overrun).
Proof.
  intros Hr Hu. rewrite b_handle_http_request_run, Hr.
  rewrite (fits_false uri) by done.
  by rewrite andb_false_r.
Qed.

(** A file larger than [response] is loaded and put into the cache; then
    [send_response] overruns the array and nothing is sent. *)
Lemma oversize_file_overruns fd w uri proto f :
  sock_recv (p_sock fd) = Received "GET" uri proto → uri ≠ "/d20" →
  strlen uri < req_uri_size → strlen proto < req_protocol_size →
  index (w_cache w) !! direct_path uri = None →
  file_load (direct_path uri) = Some f →
  max_response_size < File.size f →
  handle_http_request fd w =
    ([EvCacheGet (direct_path uri) false;
      EvFileLoad (direct_path uri) true;
      EvCachePut (direct_path uri) (mime_type_get (direct_path uri))
                 (File.data f) (File.size f)], Overrun).
Proof.
  intros Hr Hne Hu Hp Hk Hf Hbig.
  destruct (paths_fit uri Hu) as [Hfd Hfi].
  rewrite b_handle_http_request_run, Hr, (tokens_fit _ _ Hu Hp).
  rewrite decide_True by done. rewrite decide_False by done.
  rewrite b_get_file_run, Hfd, Hk, Hf.
  rewrite sending_overrun by (by apply copy_overrun).
  reflexivity.
Qed.

Lemma oversize_index_overruns fd w uri proto f :
  sock_recv (p_sock fd) = Received "GET" uri proto → uri ≠ "/d20" →
  strlen uri < req_uri_size → strlen proto < req_protocol_size →
  index (w_cache w) !! direct_path uri = None →
  file_load (direct_path uri) = None →
  file_load (index_path uri) = Some f →
  max_response_size < File.size f →
  handle_http_request fd w =
    ([EvCacheGet (direct_path uri) false;
      EvFileLoad (direct_path uri) false;
      EvFileLoad (index_path uri) true;
      EvCachePut (index_path uri) (mime_type_get (index_path uri))
                 (File.data f) (File.size f)], Overrun).
Proof.
  intros Hr Hne Hu Hp Hk Hd Hf Hbig.
  destruct (paths_fit uri Hu) as [Hfd Hfi].
  rewrite b_handle_http_request_run, Hr, (tokens_fit _ _ Hu Hp).
  rewrite decide_True by done. rewrite decide_False by done.
  rewrite b_get_file_run, Hfd, Hfi, Hk, Hd, Hf.
  rewrite sending_overrun by (by apply copy_overrun).
  reflexivity.
Qed.

(** ** Runs that stay within the arrays *)








(** ** How the process ends *)

Lemma sending_exit fd date r n w t code :
  sending fd date r n w = (t, Exit code) → False.
Proof.
  unfold sending.
  destruct (copy_fits date r n), (sock_send_ok (p_sock fd)),
    (p_sigpipe fd); discriminate.
Qed.

Lemma after_exit t (x : list event * outcome unit) t' code :
  after t x = (t', Exit code) → ∃ t0, x = (t0, Exit code).
Proof. destruct x as [t0 r]. unfold after. intros [= _ ->]. by exists t0. Qed.

Lemma b_resp_404_exit fd w t code :
  resp_404 fd w = (t, Exit code) →
  code = 3 ∧ file_load "./serverfiles/404.html" = None.
Proof.
  rewrite b_resp_404_run.
  destruct (file_load "./serverfiles/404.html") as [f|].
  - intros [t0 H]%after_exit. by apply sending_exit in H.
  - by intros [= _ <-].
Qed.

Lemma b_get_file_exit fd p w t code :
  get_file fd p w = (t, Exit code) →
  code = 3 ∧ file_load "./serverfiles/404.html" = None.
Proof.
  rewrite b_get_file_run.
  destruct (fits (direct_path p) filepath_size); [|discriminate].
  destruct (index (w_cache w) !! direct_path p).
  { intros [t0 H]%after_exit. by apply sending_exit in H. }
  destruct (file_load (direct_path p)).
  { intros [t0 H]%after_exit. by apply sending_exit in H. }
  destruct (fits (index_path p) filepath_size); [|discriminate].
  destruct (file_load (index_path p)).
  { intros [t0 H]%after_exit. by apply sending_exit in H. }
  intros [t0 H]%after_exit. by eapply b_resp_404_exit.
Qed.

Lemma b_handle_http_request_exit fd w t code :
  handle_http_request fd w = (t, Exit code) →
  code = 3 ∧ file_load "./serverfiles/404.html" = None.
Proof.
  rewrite b_handle_http_request_run.
  destruct (sock_recv (p_sock fd)) as [|m uri proto]; [discriminate|].
  destruct (_ && _); [|discriminate].
  case_decide; [|discriminate]. case_decide.
  - rewrite b_get_d20_run. destruct (fits _ _); [|discriminate].
    intros Hx. by apply sending_exit in Hx.
  - apply b_get_file_exit.
Qed.

Lemma b_serve_exit a w t code :
  serve a w = (t, Exit code) →
  code = 3 ∧ file_load "./serverfiles/404.html" = None.
Proof.
  destruct a as [|fd s]; [discriminate|].
  unfold serve, bind, lift, emit. lazy beta iota zeta.
  destruct (handle_http_request fd w) as [t1 [[] w1| | |]] eqn:Hh;
    try discriminate.
  intros [= _ <-]. by eapply b_handle_http_request_exit.
Qed.

Lemma b_main_loop_exit conns w t code :
  main_loop conns w = (t, Exit code) →
  code = 3 ∧ file_load "./serverfiles/404.html" = None.
Proof.
  revert w t. induction conns as [|a rest IH]; intros w t; [discriminate|].
  cbn [main_loop]. unfold bind at 1.
  destruct (serve a w) as [t1 [[] w1| | |]] eqn:Hs; try discriminate.
  - destruct (main_loop rest w1) as [t2 r2] eqn:Hm.
    intros [= _ ->]. by eapply IH.
  - intros [= _ <-]. by eapply b_serve_exit.
Qed.

(** X5: [main] ends the process through [exit] in two ways only: with
    code 1, before any connection is accepted and with nothing sent or
    closed, when there is no listening socket; with code 3, when the 404
    document cannot be loaded.  With a listening socket and a 404
    document that loads, a run over any connections does not end in
    [exit]; an array overrun and SIGPIPE are other ends, which this does
    not exclude. *)
Theorem main_exits_with_1_or_3 rng0 listenfd conns evs code :
  main rng0 listenfd conns = Some (evs, Exit code) →
  (listenfd < 0 ∧ code = 1 ∧ sent evs = [] ∧ closes evs = []) ∨
  (0 ≤ listenfd ∧ code = 3 ∧ file_load "./serverfiles/404.html" = None).
Proof.
  unfold main. cbn [cache_create]. lazy beta iota zeta.
  destruct (cache_create 10 0) as [c|]; [|discriminate].
  case_decide as Hl.
  - intros [= <- <-]. left. done.
  - unfold bind at 1. unfold lift at 1. unfold emit at 1.
    lazy beta iota zeta.
    destruct (main_loop conns _) as [t r] eqn:Hm.
    intros [= _ ->]. right. split; [lia|]. by eapply b_main_loop_exit.
Qed.

(** ** A run that a signal ends *)










(** ** A send that fails *)

Ltac three_sends :=
  unfold after, sending;
  match goal with
  | Hfd2 : sock_fd (p_sock ?fd2) = sock_fd (p_sock ?fd1),
    Hfd3 : sock_fd (p_sock ?fd3) = sock_fd (p_sock ?fd1),
    Hok1 : sock_send_ok (p_sock ?fd1) = true,
    Hok2 : sock_send_ok (p_sock ?fd2) = false,
    Hsig2 : p_sigpipe ?fd2 = false,
    Hok3 : sock_send_ok (p_sock ?fd3) = false,
    Hsig3 : p_sigpipe ?fd3 = true |- _ =>
      rewrite Hfd2, Hfd3, Hok1, Hok2, Hsig2, Hok3, Hsig3
  end;
  destruct (copy_fits _ _ _); cbn [fst snd];
  eexists _, _; (split; [reflexivity|]); split; reflexivity.

(** X8: whether [send] succeeds changes nothing of a request but its end.
    On a connection whose [send] fails with an error, the events are
    those of the connection whose [send] succeeds followed by the report
    of [perror], and the outcome and state are the same; where [send]
    raises SIGPIPE, the events are the same up to the [send] and the
    process is ended there.  A request that hands nothing to [send] is
    the same on the three. *)
Theorem send_error_is_only_reported fd1 fd2 fd3 w :
  sock_fd (p_sock fd2) = sock_fd (p_sock fd1) →
  sock_recv (p_sock fd2) = sock_recv (p_sock fd1) →
  sock_fd (p_sock fd3) = sock_fd (p_sock fd1) →
  sock_recv (p_sock fd3) = sock_recv (p_sock fd1) →
  sock_send_ok (p_sock fd1) = true →
  sock_send_ok (p_sock fd2) = false → p_sigpipe fd2 = false →
  sock_send_ok (p_sock fd3) = false → p_sigpipe fd3 = true →
  ∃ evs res,
    handle_http_request fd1 w = (evs, res) ∧
    handle_http_request fd2 w =
      (evs ++ match sent evs with [] => [] | _ => [EvStderr "send"] end,
       res) ∧
    handle_http_request fd3 w =
      (evs, match sent evs with [] => res | _ => Killed end).
Proof.
  intros Hfd2 Hr2 Hfd3 Hr3 Hok1 Hok2 Hsig2 Hok3 Hsig3.
  rewrite !b_handle_http_request_run, Hr2, Hr3.
  destruct (sock_recv (p_sock fd1)) as [|m uri proto];
    [by eexists _, _|].
  destruct (_ && _); [|by eexists _, _].
  case_decide; [|by eexists _, _].
  case_decide.
  - rewrite !b_get_d20_run. destruct (fits _ _); [|by eexists _, _].
    three_sends.
  - rewrite !b_get_file_run, !b_resp_404_run.
    destruct (fits (direct_path uri) filepath_size); [|by eexists _, _].
    destruct (index (w_cache w) !! direct_path uri); [three_sends|].
    destruct (file_load (direct_path uri)); [three_sends|].
    destruct (fits (index_path uri) filepath_size); [|by eexists _, _].
    destruct (file_load (index_path uri)); [three_sends|].
    destruct (file_load "./serverfiles/404.html"); [three_sends|].
    by eexists _, _.
Qed.

End BoundedProperties.

(** * The limits, on concrete requests *)

Section BoundedExamples.
Import Cache Server Trace Bounded.

Lemma big_file_law : FileLaw Limits.big_env.
Proof.
  intros p f. cbn [file_load Limits.big_env].
  unfold Limits.big_file_load.
  assert (File.size Limits.big_file =
          Z.of_nat (length (File.data Limits.big_file))) as Hbig.
  { cbn [File.size File.data Limits.big_file].
    rewrite length_replicate, Z2Nat.id; [reflexivity|discriminate]. }
  case_decide; [intros [= <-]; exact Hbig|].
  case_decide; [intros [= <-]; exact Hbig|].
  intros Hf. exact (demo_file_law p f Hf).
Qed.

Lemma long_uri_length : strlen Limits.long_uri = 1101.
Proof. vm_compute. reflexivity. Qed.

(** C5, refuted as stated.  A file of 700000 bytes at [./serverroot/big]
    is loaded and put into the cache, and then nothing is served:
    [send_response] overruns [response].  A URI of 1101 characters with no
    file at either path overruns [req_uri] and gets no 404 response.  A
    cache that holds older bytes of [./serverroot/index.html] has them
    served, not the file. *)
Lemma static_file_resolution_fails_at_limits :
  (@file_load Limits.big_env "./serverroot/big" = Some Limits.big_file ∧
   @handle_http_request Limits.big_env (Limits.get 7 "/big") Demo.world0 =
     ([EvCacheGet "./serverroot/big" false;
       EvFileLoad "./serverroot/big" true;
       EvCachePut "./serverroot/big" "text/html"
                  (File.data Limits.big_file) 700000], Overrun) ∧
   sent (@handle_http_request Limits.big_env (Limits.get 7 "/big")
           Demo.world0).1 ≠
     [@file_response Limits.big_env "HTTP/1.1 200 OK" "./serverroot/big"
        Limits.big_file]) ∧
  (@file_load Demo.demo_env (direct_path Limits.long_uri) = None ∧
   @file_load Demo.demo_env (index_path Limits.long_uri) = None ∧
   @handle_http_request Demo.demo_env (Limits.get 7 Limits.long_uri)
     Demo.world0 = ([], Overrun) ∧
   sent (@handle_http_request Demo.demo_env (Limits.get 7 Limits.long_uri)
           Demo.world0).1 ≠
     [@file_response Demo.demo_env "HTTP/1.1 404 NOT FOUND"
        "./serverfiles/404.html" Demo.not_found]) ∧
  (@file_load Demo.demo_env "./serverroot/index.html" = Some Demo.index_html ∧
   sent (@handle_http_request Demo.demo_env (Limits.get 7 "/index.html")
           Limits.stale_world).1 =
     [{| header := "HTTP/1.1 200 OK"; resp_content_type := "text/html";
         resp_content_length := 3; body := bytes_of "old" |}] ∧
   sent (@handle_http_request Demo.demo_env (Limits.get 7 "/index.html")
           Limits.stale_world).1 ≠
     [@file_response Demo.demo_env "HTTP/1.1 200 OK"
        "./serverroot/index.html" Demo.index_html]).
Proof.
  assert (@handle_http_request Limits.big_env (Limits.get 7 "/big")
            Demo.world0 =
          ([EvCacheGet "./serverroot/big" false;
            EvFileLoad "./serverroot/big" true;
            EvCachePut "./serverroot/big" "text/html"
                       (File.data Limits.big_file) 700000], Overrun)) as Hbig.
  { apply (@oversize_file_overruns Limits.big_env (Limits.get 7 "/big")
             Demo.world0 "/big" "HTTP/1.1" Limits.big_file);
      reflexivity || discriminate. }
  assert (@handle_http_request Demo.demo_env (Limits.get 7 Limits.long_uri)
            Demo.world0 = ([], Overrun)) as Hlong.
  { apply (@long_uri_overruns Demo.demo_env (Limits.get 7 Limits.long_uri)
             Demo.world0 "GET" Limits.long_uri "HTTP/1.1"); [reflexivity|].
    rewrite long_uri_length. discriminate. }
  split; [|split].
  - split; [reflexivity|]. split; [exact Hbig|]. rewrite Hbig. discriminate.
  - split; [vm_compute; reflexivity|]. split; [vm_compute; reflexivity|].
    split; [exact Hlong|]. rewrite Hlong. discriminate.
  - split; [reflexivity|].
    assert (sent (@handle_http_request Demo.demo_env
                    (Limits.get 7 "/index.html") Limits.stale_world).1 =
            [{| header := "HTTP/1.1 200 OK"; resp_content_type := "text/html";
                resp_content_length := 3; body := bytes_of "old" |}]) as Hold.
    { vm_compute. reflexivity. }
    split; [exact Hold|]. rewrite Hold. discriminate.
Qed.

(** C6, refuted as stated.  The request of [/vol] misses the cache and
    the load of its index succeeds; the file is put into the cache and no
    response follows, so no body equals the file's 700000 bytes:
    [send_response] overruns [response]. *)
Lemma miss_puts_before_send_fails_at_limits :
  (cache_get (w_cache Demo.world0) (direct_path "/vol")).1 = None ∧
  @resolve Limits.big_env "/vol" =
    Some ("./serverroot//vol/index.html", Limits.big_file) ∧
  @handle_http_request Limits.big_env (Limits.get 7 "/vol") Demo.world0 =
    ([EvCacheGet "./serverroot/vol" false;
      EvFileLoad "./serverroot/vol" false;
      EvFileLoad "./serverroot//vol/index.html" true;
      EvCachePut "./serverroot//vol/index.html" "text/html"
                 (File.data Limits.big_file) 700000], Overrun) ∧
  puts (@handle_http_request Limits.big_env (Limits.get 7 "/vol")
          Demo.world0).1 = ["./serverroot//vol/index.html"] ∧
  sent (@handle_http_request Limits.big_env (Limits.get 7 "/vol")
          Demo.world0).1 = [].
Proof.
  assert (@handle_http_request Limits.big_env (Limits.get 7 "/vol")
            Demo.world0 =
          ([EvCacheGet "./serverroot/vol" false;
            EvFileLoad "./serverroot/vol" false;
            EvFileLoad "./serverroot//vol/index.html" true;
            EvCachePut "./serverroot//vol/index.html" "text/html"
                       (File.data Limits.big_file) 700000], Overrun)) as Hbig.
  { apply (@oversize_index_overruns Limits.big_env (Limits.get 7 "/vol")
             Demo.world0 "/vol" "HTTP/1.1" Limits.big_file);
      reflexivity || discriminate. }
  split; [reflexivity|]. split; [reflexivity|]. split; [exact Hbig|].
  rewrite Hbig. split; reflexivity.
Qed.

Lemma static_file_resolution_within_bounds_witness :
  sock_recv (p_sock (Limits.get 6 "/docs")) =
    Received "GET" "/docs" "HTTP/1.1" ∧
  "/docs" ≠ "/d20" ∧
  strlen "/docs" < req_uri_size ∧ strlen "HTTP/1.1" < req_protocol_size ∧
  @fresh_at Demo.demo_env (w_cache Demo.world0) "/docs" ∧
  (∀ r, @due_response Demo.demo_env "/docs" = Some r →
        response_fits
          (@asctime Demo.demo_env (@time Demo.demo_env (w_ticks Demo.world0)))
          r) ∧
  ∃ evs res,
    @handle_http_request Demo.demo_env (Limits.get 6 "/docs") Demo.world0 =
      (evs, res) ∧
    sent evs = [@file_response Demo.demo_env "HTTP/1.1 200 OK"
                  "./serverroot//docs/index.html" Demo.docs_index] ∧
    loads evs = [("./serverroot/docs", false);
                 ("./serverroot//docs/index.html", true)] ∧
    ended (Limits.get 6 "/docs") res.
Proof.
  assert (@fresh_at Demo.demo_env (w_cache Demo.world0) "/docs") as Hfresh.
  { intros e He. vm_compute in He. discriminate He. }
  assert (∀ r, @due_response Demo.demo_env "/docs" = Some r →
               response_fits
                 (@asctime Demo.demo_env
                    (@time Demo.demo_env (w_ticks Demo.world0))) r) as Hfit.
  { intros r Hr. vm_compute in Hr. injection Hr as <-.
    vm_compute. split; [reflexivity|discriminate]. }
  split; [reflexivity|]. split; [discriminate|].
  split; [reflexivity|]. split; [reflexivity|].
  split; [exact Hfresh|]. split; [exact Hfit|].
  exact (@static_file_resolution_within_bounds Demo.demo_env demo_file_law
           (Limits.get 6 "/docs") Demo.world0 "/docs" "HTTP/1.1"
           eq_refl ltac:(discriminate) eq_refl eq_refl Hfresh Hfit).
Defined.

Lemma miss_puts_before_send_within_bounds_witness :
  sock_recv (p_sock (Limits.get 4 "/index.html")) =
    Received "GET" "/index.html" "HTTP/1.1" ∧
  "/index.html" ≠ "/d20" ∧
  strlen "/index.html" < req_uri_size ∧
  strlen "HTTP/1.1" < req_protocol_size ∧
  (cache_get (w_cache Demo.world0) (direct_path "/index.html")).1 = None ∧
  @resolve Demo.demo_env "/index.html" =
    Some ("./serverroot/index.html", Demo.index_html) ∧
  response_fits
    (@asctime Demo.demo_env (@time Demo.demo_env (w_ticks Demo.world0)))
    (@file_response Demo.demo_env "HTTP/1.1 200 OK"
       "./serverroot/index.html" Demo.index_html) ∧
  ∃ pre post res,
    @handle_http_request Demo.demo_env (Limits.get 4 "/index.html")
      Demo.world0 =
      (pre ++ EvCachePut "./serverroot/index.html" "text/html"
                         (File.data Demo.index_html)
                         (File.size Demo.index_html) ::
              EvSend 4 (@asctime Demo.demo_env
                          (@time Demo.demo_env (w_ticks Demo.world0)))
                     (@file_response Demo.demo_env "HTTP/1.1 200 OK"
                        "./serverroot/index.html" Demo.index_html) ::
              post, res) ∧
    sent pre = [] ∧ sent post = [] ∧
    Forall (λ e, ∀ k c d l, e ≠ EvCachePut k c d l) (pre ++ post) ∧
    body (@file_response Demo.demo_env "HTTP/1.1 200 OK"
            "./serverroot/index.html" Demo.index_html) =
      File.data Demo.index_html ∧
    resp_content_length (@file_response Demo.demo_env "HTTP/1.1 200 OK"
            "./serverroot/index.html" Demo.index_html) =
      File.size Demo.index_html ∧
    ended (Limits.get 4 "/index.html") res ∧
    (∀ w', res = Returned tt w' →
       w_cache w' = cache_put (w_cache Demo.world0) "./serverroot/index.html"
                              "text/html" (File.data Demo.index_html)
                              (File.size Demo.index_html)).
Proof.
  assert (response_fits
            (@asctime Demo.demo_env
               (@time Demo.demo_env (w_ticks Demo.world0)))
            (@file_response Demo.demo_env "HTTP/1.1 200 OK"
               "./serverroot/index.html" Demo.index_html)) as Hfit.
  { vm_compute. split; [reflexivity|discriminate]. }
  split; [reflexivity|]. split; [discriminate|].
  split; [reflexivity|]. split; [reflexivity|].
  split; [reflexivity|]. split; [reflexivity|]. split; [exact Hfit|].
  exact (@miss_puts_before_send_within_bounds Demo.demo_env demo_file_law
           (Limits.get 4 "/index.html") Demo.world0 "/index.html" "HTTP/1.1"
           "./serverroot/index.html" Demo.index_html
           eq_refl ltac:(discriminate) eq_refl eq_refl eq_refl eq_refl Hfit).
Defined.

Lemma main_exits_with_1_or_3_witness :
  ∃ evs,
    @main Demo.bare_env 1 3 [Accepted (Limits.get 8 "/nope") "b"] =
      Some (evs, Exit 3) ∧
    ((3 < 0 ∧ 3 = 1 ∧ sent evs = [] ∧ closes evs = []) ∨
     (0 ≤ 3 ∧ 3 = 3 ∧
      @file_load Demo.bare_env "./serverfiles/404.html" = None)).
Proof.
  eexists. split; [vm_compute; reflexivity|].
  refine (@main_exits_with_1_or_3 Demo.bare_env 1 3
            [Accepted (Limits.get 8 "/nope") "b"] _ 3 _).
  vm_compute. reflexivity.
Defined.

Lemma send_error_is_only_reported_witness :
  sock_fd (p_sock (Limits.get_failing 4 "/index.html" false)) =
    sock_fd (p_sock (Limits.get 4 "/index.html")) ∧
  sock_recv (p_sock (Limits.get_failing 4 "/index.html" false)) =
    sock_recv (p_sock (Limits.get 4 "/index.html")) ∧
  sock_fd (p_sock (Limits.get_failing 4 "/index.html" true)) =
    sock_fd (p_sock (Limits.get 4 "/index.html")) ∧
  sock_recv (p_sock (Limits.get_failing 4 "/index.html" true)) =
    sock_recv (p_sock (Limits.get 4 "/index.html")) ∧
  sock_send_ok (p_sock (Limits.get 4 "/index.html")) = true ∧
  sock_send_ok (p_sock (Limits.get_failing 4 "/index.html" false)) = false ∧
  p_sigpipe (Limits.get_failing 4 "/index.html" false) = false ∧
  sock_send_ok (p_sock (Limits.get_failing 4 "/index.html" true)) = false ∧
  p_sigpipe (Limits.get_failing 4 "/index.html" true) = true ∧
  ∃ evs res,
    @handle_http_request Demo.demo_env (Limits.get 4 "/index.html")
      Demo.world0 = (evs, res) ∧
    @handle_http_request Demo.demo_env
      (Limits.get_failing 4 "/index.html" false) Demo.world0 =
      (evs ++ match sent evs with [] => [] | _ => [EvStderr "send"] end,
       res) ∧
    @handle_http_request Demo.demo_env
      (Limits.get_failing 4 "/index.html" true) Demo.world0 =
      (evs, match sent evs with [] => res | _ => Killed end).
Proof.
  do 9 (split; [reflexivity|]).
  exact (@send_error_is_only_reported Demo.demo_env
           (Limits.get 4 "/index.html")
           (Limits.get_failing 4 "/index.html" false)
           (Limits.get_failing 4 "/index.html" true) Demo.world0
           eq_refl eq_refl eq_refl eq_refl eq_refl eq_refl eq_refl eq_refl
           eq_refl).
Defined.



(** The bytes of the 404 document enter the cache when a URI leads to the
    document from the root directory: the key is another string than the
    path that [resp_404] loads. *)
Example not_found_document_under_another_key :
  ∃ t w',
    @handle_http_request Limits.dotdot_env
      (Limits.get 3 "/../serverfiles/404.html") Demo.world0 =
      (t, Returned tt w') ∧
    puts t = ["./serverroot/../serverfiles/404.html"] ∧
    (cache_get (w_cache w') "./serverroot/../serverfiles/404.html").1 =
      Some {| path := "./serverroot/../serverfiles/404.html";
              content_type := "text/html";
              content := File.data Demo.not_found;
              content_length := File.size Demo.not_found |}.
Proof.
  eexists _, _. split; [vm_compute; reflexivity|].
  split; vm_compute; reflexivity.
Qed.

(** A send that fails on a request that is answered: the report follows
    the send, or the signal ends the process before the connection is
    closed. *)
Example failed_send_of_index_html :
  (@handle_http_request Demo.demo_env
     (Limits.get_failing 4 "/index.html" false) Demo.world0).2 =
    (@handle_http_request Demo.demo_env (Limits.get 4 "/index.html")
       Demo.world0).2 ∧
  last (@handle_http_request Demo.demo_env
          (Limits.get_failing 4 "/index.html" false) Demo.world0).1 =
    Some (EvStderr "send") ∧
  (@handle_http_request Demo.demo_env
     (Limits.get_failing 4 "/index.html" true) Demo.world0).2 = Killed ∧
  (@main_loop Demo.demo_env
     [Accepted (Limits.get_failing 4 "/index.html" true) "a";
      Accepted (Limits.get 5 "/index.html") "b"] Demo.world0).2 = Killed ∧
  closes (@main_loop Demo.demo_env
            [Accepted (Limits.get_failing 4 "/index.html" true) "a";
             Accepted (Limits.get 5 "/index.html") "b"] Demo.world0).1 = [].
Proof. vm_compute. done. Qed.

End BoundedExamples.
